(** * Solar production tracker: weekly aggregation and entry reconciliation

    A shallow embedding of the TypeScript sources
    - [components/solar-tracker.tsx] (the [SolarTracker] component),
    - the chart component ([SolarChart]: [maxValue], [chartData]),
    - the worker helpers ([processEntries], [calculateStats],
      [processChartData]),
    followed by the properties of the weekly aggregation engine.

    Conventions of the embedding.
    - A JavaScript [number] is an exact rational or [NaN]: IEEE rounding,
      the infinities and the sign of zero are not represented.
    - React state and refs are the fields of one record [State]; an event
      handler is a function on [State], written in the order in which its
      effects become visible.
    - [crypto.randomUUID()] is a counter: the n-th call returns [Uuid n].
    - The date-fns functions are modelled on local calendar time with
      uniform 24 hour days. *)

From Stdlib Require Import ZArith QArith Lia Lqa Ascii String.
From stdpp Require Import gmap strings list fin_maps.

Local Close Scope Q_scope.
Local Open Scope Z_scope.

(** ** JavaScript numbers *)

Inductive number : Type :=
  | Fin (q : Q)
  | NaN.

Module Num.

Definition zero : number := Fin 0%Q.
Definition of_Z (z : Z) : number := Fin (inject_Z z).
Definition of_nat (n : nat) : number := of_Z (Z.of_nat n).

Definition isNaN (x : number) : bool :=
  match x with NaN => true | Fin _ => false end.

Definition Qltb (a b : Q) : bool := negb (Qle_bool b a).

(** [x < y], [x > y], [x <= y], [x >= y]: false as soon as one side is
    [NaN]. *)
Definition lt (x y : number) : bool :=
  match x, y with Fin a, Fin b => Qltb a b | _, _ => false end.
Definition gt (x y : number) : bool := lt y x.
Definition le (x y : number) : bool :=
  match x, y with Fin a, Fin b => Qle_bool a b | _, _ => false end.
Definition ge (x y : number) : bool := le y x.

Definition add (x y : number) : number :=
  match x, y with Fin a, Fin b => Fin (a + b)%Q | _, _ => NaN end.
Definition mul (x y : number) : number :=
  match x, y with Fin a, Fin b => Fin (a * b)%Q | _, _ => NaN end.
(** Division; a zero divisor (an infinity or NaN in JavaScript) is
    mapped to [NaN].  No division of the embedded code has a zero
    divisor. *)
Definition div (x y : number) : number :=
  match x, y with
  | Fin a, Fin b => if Qeq_bool b 0%Q then NaN else Fin (a / b)%Q
  | _, _ => NaN
  end.

(** [Math.max(x, y)] *)
Definition max (x y : number) : number :=
  match x, y with
  | Fin a, Fin b => if Qle_bool a b then Fin b else Fin a
  | _, _ => NaN
  end.

(** Truthiness of a number: [0] and [NaN] are falsy. *)
Definition truthy (x : number) : bool :=
  match x with Fin a => negb (Qeq_bool a 0%Q) | NaN => false end.

(** [x || d] *)
Definition or_else (x d : number) : number := if truthy x then x else d.

(** Numeric equality of the represented values: rationals up to [Qeq]. *)
Definition eqv (x y : number) : Prop :=
  match x, y with
  | Fin a, Fin b => (a == b)%Q
  | NaN, NaN => True
  | _, _ => False
  end.

End Num.

Infix "≃" := Num.eqv (at level 70, no associativity).

(** ** Entries *)

(** An [id] is a string read from storage or the result of a call to
    [crypto.randomUUID()]. *)
Inductive ident : Type :=
  | Loaded (s : string)
  | Uuid (n : nat).

(** [interface SolarEntry { date: string; production: number; id: string }] *)
Record SolarEntry : Type := mkEntry {
  date : string;
  production : number;
  id : ident;
}.

(** ** Weekly statistics *)

Record WeeklyStats : Type := mkStats {
  weeklyTotal : number;
  dailyAverage : number;
  maxProduction : number;
  maxProductionDay : option SolarEntry;
}.

(** *** [weeklyStats] of the tracker component: one [reduce] *)
Module Tracker_stats.

Record acc : Type := mkAcc {
  total : number;
  daysWithProduction : nat;
  accMax : number;
  accMaxDay : option SolarEntry;
}.

Definition init : acc := mkAcc Num.zero 0%nat Num.zero None.

Definition step (a : acc) (entry : SolarEntry) : acc :=
  let p := production entry in
  let a1 := mkAcc (Num.add (total a) p) (daysWithProduction a) (accMax a) (accMaxDay a) in
  let a2 := if Num.gt p Num.zero
            then mkAcc (total a1) (S (daysWithProduction a1)) (accMax a1) (accMaxDay a1)
            else a1 in
  if Num.gt p (accMax a2)
  then mkAcc (total a2) (daysWithProduction a2) p (Some entry)
  else a2.

Definition weeklyStats (weeklyEntries : list SolarEntry) : WeeklyStats :=
  if (length weeklyEntries =? 0)%nat
  then mkStats Num.zero Num.zero Num.zero None
  else
    let r := fold_left step weeklyEntries init in
    let avg := if (0 <? daysWithProduction r)%nat
               then Num.div (total r) (Num.of_nat (daysWithProduction r))
               else Num.zero in
    mkStats (total r) avg (accMax r) (accMaxDay r).

End Tracker_stats.

(** *** [calculateStats] of the worker: three passes *)
Module Worker_stats.

(** The body of the [for] loop, on [(maxProduction, maxProductionDay)]. *)
Definition maxStep (acc : number * option SolarEntry) (entry : SolarEntry)
    : number * option SolarEntry :=
  let '(maxProduction, maxProductionDay) := acc in
  if Num.gt (production entry) maxProduction
  then (production entry, Some entry)
  else (maxProduction, maxProductionDay).

Definition calculateStats (entries : list SolarEntry) : WeeklyStats :=
  let total := fold_left (fun sum entry => Num.add sum (production entry)) entries Num.zero in
  let daysWithProduction :=
    length (filter (fun entry => Num.gt (production entry) Num.zero = true) entries) in
  let avg := if (0 <? daysWithProduction)%nat
             then Num.div total (Num.of_nat daysWithProduction)
             else Num.zero in
  let '(maxP, maxDay) := fold_left maxStep entries (Num.zero, None) in
  mkStats total avg maxP maxDay.

End Worker_stats.

(** ** Chart projection *)

(** [Math.max(x0, x1, ..., xn)] on at least one argument. *)
Definition Math_max (x0 : number) (xs : list number) : number :=
  fold_left Num.max xs x0.

Inductive JSDate : Type :=
  | ValidDate (ms : Z)     (* local time, milliseconds since the epoch *)
  | InvalidDate.

(** *** The [SolarChart] component *)
Module SolarChart.

(** The body of the loop of [maxValue], on [max]. *)
Definition pick (max : number) (entry : SolarEntry) : number :=
  if Num.gt (production entry) max then production entry else max.

Definition maxValue (entries : list SolarEntry) : number :=
  if (length entries =? 0)%nat then Num.of_Z 10
  else
    let max := fold_left pick entries Num.zero in
    Num.or_else max (Num.of_Z 10).

(** One element of [chartData].  The two label strings ([dayOfMonth],
    [formattedDate]) are not represented; what is kept of them is that
    [format] throws on a date that [parseISO] cannot read. *)
Record bar : Type := mkBar {
  key : string;
  index : nat;
  barProduction : number;
  heightPercentage : number;
  isEmpty : bool;
}.

Definition barOf (maxValue : number) (i : nat) (entry : SolarEntry) : bar :=
  let production := production entry in
  let isEmpty := Num.le production Num.zero in
  let heightPercentage :=
    if isEmpty then Num.of_Z 4
    else Num.max (Num.of_Z 5) (Num.mul (Num.div production maxValue) (Num.of_Z 100)) in
  mkBar (date entry) i production heightPercentage isEmpty.

Section chartData.
(** [parseISO] of date-fns, a parameter of the model. *)
Variable parseISO : string -> JSDate.

Definition readable (entry : SolarEntry) : bool :=
  match parseISO (date entry) with ValidDate _ => true | InvalidDate => false end.

(** [None]: the loop threw a [RangeError]. *)
Definition chartData (entries : list SolarEntry) : option (list bar) :=
  if forallb readable entries
  then Some (imap (barOf (maxValue entries)) entries)
  else None.
End chartData.

End SolarChart.

(** *** [processChartData] of the worker *)
Module Worker_chart.

Record result : Type := mkResult {
  maxValue : number;
  processedEntries : list SolarEntry;   (* the added label fields are not represented *)
}.

Definition processChartData (entries : list SolarEntry) : result :=
  match entries with
  | [] => mkResult Num.zero []
  | e :: es =>
      let maxValue :=
        Num.or_else (Math_max (production e) (map production es)) (Num.of_Z 10) in
      mkResult maxValue entries
  end.

End Worker_chart.

(** ** Values read from storage or typed in a form *)

Inductive jsval : Type :=
  | JUndefined
  | JNull
  | JBool (b : bool)
  | JNum (n : number)
  | JStr (s : string).

(** Decimal numerals [-ddd.ddd]; the empty string is [0].  The other
    forms of the StringToNumber grammar (white space, exponents, hex,
    [Infinity]) are read as [NaN] here. *)
Module Decimal.

Definition digitOf (c : ascii) : option Z :=
  let n := Z.of_nat (nat_of_ascii c) in
  if (48 <=? n) && (n <=? 57) then Some (n - 48) else None.

(** Reads digits up to the end or to a single dot; returns the integer
    part read so far, or continues with the fraction. *)
Fixpoint fraction (s : string) (num den : Z) : option (Z * Z) :=
  match s with
  | EmptyString => Some (num, den)
  | String c s' =>
      match digitOf c with
      | Some d => fraction s' (10 * num + d) (10 * den)
      | None => None
      end
  end.

Fixpoint integer (s : string) (acc : Z) (seen : bool) : option (Z * Z) :=
  match s with
  | EmptyString => if seen then Some (acc, 1) else None
  | String c s' =>
      match digitOf c with
      | Some d => integer s' (10 * acc + d) true
      | None =>
          if Ascii.eqb c "."%char
          then match s' with
               | EmptyString => if seen then Some (acc, 1) else None
               | _ => fraction s' acc 1
               end
          else None
      end
  end.

Definition unsigned (s : string) : option Q :=
  match integer s 0 false with
  | Some (n, d) => Some (Qmake n (Z.to_pos d))
  | None => None
  end.

Definition parse (s : string) : number :=
  match s with
  | EmptyString => Num.zero
  | String c s' =>
      if Ascii.eqb c "-"%char
      then match unsigned s' with Some q => Fin (- q)%Q | None => NaN end
      else if Ascii.eqb c "+"%char
      then match unsigned s' with Some q => Fin q | None => NaN end
      else match unsigned s with Some q => Fin q | None => NaN end
  end.

End Decimal.

(** [Number(v)] *)
Definition toNumber (v : jsval) : number :=
  match v with
  | JUndefined => NaN
  | JNull => Num.zero
  | JBool b => if b then Num.of_Z 1 else Num.zero
  | JNum n => n
  | JStr s => Decimal.parse s
  end.

(** [formSchema]: [z.coerce.number().nonnegative().max(100)]; [None] when
    validation fails. *)
Definition formSchema (input : jsval) : option number :=
  let n := toNumber input in
  if Num.isNaN n then None
  else if Num.ge n Num.zero && Num.le n (Num.of_Z 100) then Some n
  else None.

(** ** Calendar dates (date-fns) *)

Module DateFns.

Definition msPerDay : Z := 86400000.

(** Days since 1970-01-01, a Thursday. *)
Definition dayNumber (ms : Z) : Z := ms / msPerDay.

(** [getDay]: 0 is Sunday. *)
Definition getDay (ms : Z) : Z := (dayNumber ms + 4) mod 7.

Definition isValid (d : JSDate) : bool :=
  match d with ValidDate _ => true | InvalidDate => false end.

(** [startOfWeek(date)] with the default [weekStartsOn: 0]: midnight of
    the Sunday on or before [date]. *)
Definition startOfWeek (d : JSDate) : JSDate :=
  match d with
  | ValidDate ms => ValidDate ((dayNumber ms - getDay ms) * msPerDay)
  | InvalidDate => InvalidDate
  end.

Definition addDays (d : JSDate) (amount : Z) : JSDate :=
  match d with
  | ValidDate ms => ValidDate (ms + amount * msPerDay)
  | InvalidDate => InvalidDate
  end.

(** [a > b] on dates compares the time values; false when one of them
    is invalid. *)
Definition after (a b : JSDate) : bool :=
  match a, b with
  | ValidDate x, ValidDate y => y <? x
  | _, _ => false
  end.

(** Year, month and day of a day number in the proleptic Gregorian
    calendar. *)
Definition civil (day : Z) : Z * Z * Z :=
  let z := day + 719468 in
  let era := z / 146097 in
  let doe := z - era * 146097 in
  let yoe := (doe - doe / 1460 + doe / 36524 - doe / 146096) / 365 in
  let doy := doe - (365 * yoe + yoe / 4 - yoe / 100) in
  let mp := (5 * doy + 2) / 153 in
  let d := doy - (153 * mp + 2) / 5 + 1 in
  let m := if mp <? 10 then mp + 3 else mp - 9 in
  let y := yoe + era * 400 + (if m <=? 2 then 1 else 0) in
  (y, m, d).

Definition digit (z : Z) : ascii := ascii_of_nat (Z.to_nat (48 + z mod 10)).

Definition pad2 (z : Z) : string :=
  String (digit (z / 10)) (String (digit z) EmptyString).

(** Years 0 to 9999 are written on four digits; the rendering of the
    other years only keeps their last four digits. *)
Definition pad4 (z : Z) : string :=
  String (digit (z / 1000)) (String (digit (z / 100)) (pad2 z)).

(** The text [yyyy-MM-dd] of a day number. *)
Definition formatDay (day : Z) : string :=
  let '(y, m, dd) := civil day in
  (pad4 y ++ "-" ++ pad2 m ++ "-" ++ pad2 dd)%string.

(** [format(d, "yyyy-MM-dd")]; [None] is the [RangeError] thrown on an
    invalid date. *)
Definition format (d : JSDate) : option string :=
  match d with
  | ValidDate ms => Some (formatDay (dayNumber ms))
  | InvalidDate => None
  end.

End DateFns.

(** ** The [SolarTracker] component *)

(** A pending callback of the debounced save: the timer id, the time at
    which it fires and the [entries] captured by its closure. *)
Record Timer : Type := mkTimer {
  tid : positive;
  due : Z;
  snapshot : list SolarEntry;
}.

(** The state and the refs of the component, with the part of the
    environment that the handlers read or write. *)
Record State : Type := mkState {
  st_date : option JSDate;   (* the [date] state: the anchor of the displayed week *)
  today : JSDate;   (* [useMemo(() => new Date(), [])] *)
  entries : list SolarEntry;   (* the [entries] state *)
  entriesRef : list SolarEntry;
  entriesMapRef : gmap string SolarEntry;
  weeklyEntriesCache : option (string * list SolarEntry);   (* [{ date, entries } | null] *)
  pendingUpdatesRef : gmap string number;
  forceUpdate : nat;
  isLoading : bool;
  isInitialized : bool;
  initialRenderRef : bool;
  saveTimeoutRef : option positive;
  saveCleanup : bool;   (* whether the last run of the save effect returned its cleanup *)
  uuidCalls : nat;   (* number of calls to [crypto.randomUUID] so far *)
  clock : Z;   (* current time, in milliseconds *)
  timers : list Timer;   (* pending [setTimeout] callbacks of the save effect, oldest first *)
  nextTimer : positive;
  writes : list (list SolarEntry);   (* the values given to [safeStorage.set], oldest first *)
}.

(** Field updates: [set_f v s] is [s] with the field [f] set to [v]. *)

Definition set_st_date (v : option JSDate) (s : State) : State :=
  mkState v (today s) (entries s) (entriesRef s) (entriesMapRef s)
    (weeklyEntriesCache s) (pendingUpdatesRef s) (forceUpdate s) (isLoading s)
    (isInitialized s) (initialRenderRef s) (saveTimeoutRef s) (saveCleanup s)
    (uuidCalls s) (clock s) (timers s) (nextTimer s) (writes s).

Definition set_entries (v : list SolarEntry) (s : State) : State :=
  mkState (st_date s) (today s) v (entriesRef s) (entriesMapRef s)
    (weeklyEntriesCache s) (pendingUpdatesRef s) (forceUpdate s) (isLoading s)
    (isInitialized s) (initialRenderRef s) (saveTimeoutRef s) (saveCleanup s)
    (uuidCalls s) (clock s) (timers s) (nextTimer s) (writes s).

Definition set_entriesRef (v : list SolarEntry) (s : State) : State :=
  mkState (st_date s) (today s) (entries s) v (entriesMapRef s) (weeklyEntriesCache s)
    (pendingUpdatesRef s) (forceUpdate s) (isLoading s) (isInitialized s)
    (initialRenderRef s) (saveTimeoutRef s) (saveCleanup s) (uuidCalls s) (clock s)
    (timers s) (nextTimer s) (writes s).

Definition set_entriesMapRef (v : gmap string SolarEntry) (s : State) : State :=
  mkState (st_date s) (today s) (entries s) (entriesRef s) v (weeklyEntriesCache s)
    (pendingUpdatesRef s) (forceUpdate s) (isLoading s) (isInitialized s)
    (initialRenderRef s) (saveTimeoutRef s) (saveCleanup s) (uuidCalls s) (clock s)
    (timers s) (nextTimer s) (writes s).

Definition set_weeklyEntriesCache (v : option (string * list SolarEntry)) (s : State) : State :=
  mkState (st_date s) (today s) (entries s) (entriesRef s) (entriesMapRef s) v
    (pendingUpdatesRef s) (forceUpdate s) (isLoading s) (isInitialized s)
    (initialRenderRef s) (saveTimeoutRef s) (saveCleanup s) (uuidCalls s) (clock s)
    (timers s) (nextTimer s) (writes s).

Definition set_pendingUpdatesRef (v : gmap string number) (s : State) : State :=
  mkState (st_date s) (today s) (entries s) (entriesRef s) (entriesMapRef s)
    (weeklyEntriesCache s) v (forceUpdate s) (isLoading s) (isInitialized s)
    (initialRenderRef s) (saveTimeoutRef s) (saveCleanup s) (uuidCalls s) (clock s)
    (timers s) (nextTimer s) (writes s).

Definition set_forceUpdate (v : nat) (s : State) : State :=
  mkState (st_date s) (today s) (entries s) (entriesRef s) (entriesMapRef s)
    (weeklyEntriesCache s) (pendingUpdatesRef s) v (isLoading s) (isInitialized s)
    (initialRenderRef s) (saveTimeoutRef s) (saveCleanup s) (uuidCalls s) (clock s)
    (timers s) (nextTimer s) (writes s).

Definition set_isLoading (v : bool) (s : State) : State :=
  mkState (st_date s) (today s) (entries s) (entriesRef s) (entriesMapRef s)
    (weeklyEntriesCache s) (pendingUpdatesRef s) (forceUpdate s) v (isInitialized s)
    (initialRenderRef s) (saveTimeoutRef s) (saveCleanup s) (uuidCalls s) (clock s)
    (timers s) (nextTimer s) (writes s).

Definition set_isInitialized (v : bool) (s : State) : State :=
  mkState (st_date s) (today s) (entries s) (entriesRef s) (entriesMapRef s)
    (weeklyEntriesCache s) (pendingUpdatesRef s) (forceUpdate s) (isLoading s) v
    (initialRenderRef s) (saveTimeoutRef s) (saveCleanup s) (uuidCalls s) (clock s)
    (timers s) (nextTimer s) (writes s).

Definition set_initialRenderRef (v : bool) (s : State) : State :=
  mkState (st_date s) (today s) (entries s) (entriesRef s) (entriesMapRef s)
    (weeklyEntriesCache s) (pendingUpdatesRef s) (forceUpdate s) (isLoading s)
    (isInitialized s) v (saveTimeoutRef s) (saveCleanup s) (uuidCalls s) (clock s)
    (timers s) (nextTimer s) (writes s).

Definition set_saveTimeoutRef (v : option positive) (s : State) : State :=
  mkState (st_date s) (today s) (entries s) (entriesRef s) (entriesMapRef s)
    (weeklyEntriesCache s) (pendingUpdatesRef s) (forceUpdate s) (isLoading s)
    (isInitialized s) (initialRenderRef s) v (saveCleanup s) (uuidCalls s) (clock s)
    (timers s) (nextTimer s) (writes s).

Definition set_saveCleanup (v : bool) (s : State) : State :=
  mkState (st_date s) (today s) (entries s) (entriesRef s) (entriesMapRef s)
    (weeklyEntriesCache s) (pendingUpdatesRef s) (forceUpdate s) (isLoading s)
    (isInitialized s) (initialRenderRef s) (saveTimeoutRef s) v (uuidCalls s) (clock s)
    (timers s) (nextTimer s) (writes s).

Definition set_uuidCalls (v : nat) (s : State) : State :=
  mkState (st_date s) (today s) (entries s) (entriesRef s) (entriesMapRef s)
    (weeklyEntriesCache s) (pendingUpdatesRef s) (forceUpdate s) (isLoading s)
    (isInitialized s) (initialRenderRef s) (saveTimeoutRef s) (saveCleanup s) v
    (clock s) (timers s) (nextTimer s) (writes s).

Definition set_clock (v : Z) (s : State) : State :=
  mkState (st_date s) (today s) (entries s) (entriesRef s) (entriesMapRef s)
    (weeklyEntriesCache s) (pendingUpdatesRef s) (forceUpdate s) (isLoading s)
    (isInitialized s) (initialRenderRef s) (saveTimeoutRef s) (saveCleanup s)
    (uuidCalls s) v (timers s) (nextTimer s) (writes s).

Definition set_timers (v : list Timer) (s : State) : State :=
  mkState (st_date s) (today s) (entries s) (entriesRef s) (entriesMapRef s)
    (weeklyEntriesCache s) (pendingUpdatesRef s) (forceUpdate s) (isLoading s)
    (isInitialized s) (initialRenderRef s) (saveTimeoutRef s) (saveCleanup s)
    (uuidCalls s) (clock s) v (nextTimer s) (writes s).

Definition set_nextTimer (v : positive) (s : State) : State :=
  mkState (st_date s) (today s) (entries s) (entriesRef s) (entriesMapRef s)
    (weeklyEntriesCache s) (pendingUpdatesRef s) (forceUpdate s) (isLoading s)
    (isInitialized s) (initialRenderRef s) (saveTimeoutRef s) (saveCleanup s)
    (uuidCalls s) (clock s) (timers s) v (writes s).

Definition set_writes (v : list (list SolarEntry)) (s : State) : State :=
  mkState (st_date s) (today s) (entries s) (entriesRef s) (entriesMapRef s)
    (weeklyEntriesCache s) (pendingUpdatesRef s) (forceUpdate s) (isLoading s)
    (isInitialized s) (initialRenderRef s) (saveTimeoutRef s) (saveCleanup s)
    (uuidCalls s) (clock s) (timers s) (nextTimer s) v.

(** The state at the first render; [now] is the time of the mount. *)
Definition initial (now : Z) : State :=
  {| st_date := None; today := ValidDate now;
     entries := []; entriesRef := []; entriesMapRef := ∅;
     weeklyEntriesCache := None; pendingUpdatesRef := ∅; forceUpdate := 0%nat;
     isLoading := true; isInitialized := false; initialRenderRef := true;
     saveTimeoutRef := None; saveCleanup := false;
     uuidCalls := 0%nat; clock := now; timers := []; nextTimer := 1%positive;
     writes := [] |}.

(** [crypto.randomUUID()] *)
Definition randomUUID (s : State) : ident * State :=
  (Uuid (uuidCalls s), set_uuidCalls (S (uuidCalls s)) s).

(** An id is falsy when it is the empty string. *)
Definition truthyId (i : ident) : bool :=
  match i with
  | Loaded EmptyString => false
  | _ => true
  end.

(** [entries.forEach((entry) => map.set(entry.date, entry))] *)
Definition setAll (m : gmap string SolarEntry) (l : list SolarEntry) : gmap string SolarEntry :=
  fold_left (fun m entry => <[date entry := entry]> m) l m.

(** [new Map()] filled from [l]. *)
Definition mapOfEntries (l : list SolarEntry) : gmap string SolarEntry := setAll ∅ l.

(** [{ ...entry, production }] *)
Definition withProduction (entry : SolarEntry) (p : number) : SolarEntry :=
  mkEntry (date entry) p (id entry).

(** *** Bulk load from storage *)

(** An element of the stored array: [id] may be missing, [production]
    is any scalar, [date] is a string of any content. *)
Record RawEntry : Type := mkRaw {
  raw_id : option string;
  raw_date : string;
  raw_production : jsval;
}.

(** [{ ...entry, id: entry.id || crypto.randomUUID(), date: entry.date,
       production: Number(entry.production) }], where [n] counts the
    calls to [randomUUID]. *)
Definition coerce (entry : RawEntry) (n : nat) : SolarEntry * nat :=
  match raw_id entry with
  | Some i =>
      if truthyId (Loaded i)
      then (mkEntry (raw_date entry) (toNumber (raw_production entry)) (Loaded i), n)
      else (mkEntry (raw_date entry) (toNumber (raw_production entry)) (Uuid n), S n)
  | None => (mkEntry (raw_date entry) (toNumber (raw_production entry)) (Uuid n), S n)
  end.

(** [chunk.map(...)] *)
Fixpoint coerceAll (chunk : list RawEntry) (n : nat) : list SolarEntry * nat :=
  match chunk with
  | [] => ([], n)
  | entry :: rest =>
      let '(e, n1) := coerce entry n in
      let '(es, n2) := coerceAll rest n1 in
      (e :: es, n2)
  end.

(** [processChunk(entries, startIndex, chunkSize)]; the rescheduling
    through [setTimeout(.., 0)] is the recursive call, and [fuel] bounds
    the number of chunks ([None]: not enough fuel). *)
Fixpoint processChunk (fuel : nat) (saved : list RawEntry) (startIndex chunkSize : nat)
    (s : State) : option State :=
  match fuel with
  | O => None
  | S fuel' =>
      let endIndex := Nat.min (startIndex + chunkSize) (length saved) in
      let chunk := take (endIndex - startIndex) (drop startIndex saved) in
      let '(processedChunk, n) := coerceAll chunk (uuidCalls s) in
      let s := set_uuidCalls n s in
      let s := set_entriesMapRef (setAll (entriesMapRef s) processedChunk) s in
      if (endIndex <? length saved)%nat
      then processChunk fuel' saved endIndex chunkSize s
      else
        let s := set_entries (entries s ++ processedChunk) s in
        let s := set_entriesRef (entriesRef s ++ processedChunk) s in
        let s := set_isLoading false s in
        Some (set_isInitialized true s)
  end.

(** [loadEntries], on the value [safeStorage.get(STORAGE_KEY)] returned:
    [None] is [null]. *)
Definition loadEntries (savedEntries : option (list RawEntry)) (s : State) : option State :=
  match savedEntries with
  | Some saved => processChunk (S (length saved)) saved 0 50 s
  | None => Some (set_isInitialized true (set_isLoading false s))
  end.

(** *** The worker's [processEntries] *)
Module Worker_entries.



Record result : Type := mkResult {
  resEntries : list SolarEntry;
  resEntriesMap : list (string * SolarEntry);   (* [Array.from(map.entries())] *)
}.


End Worker_entries.

(** *** Upserts *)

(** [updateEntriesState(updatedEntries)] *)
Definition updateEntriesState (updatedEntries : list SolarEntry) (s : State) : State :=
  let s := set_entries updatedEntries s in
  let s := set_entriesRef updatedEntries s in
  let s := set_entriesMapRef (mapOfEntries updatedEntries) s in
  let s := set_weeklyEntriesCache None s in
  set_forceUpdate (S (forceUpdate s)) s.

(** [onSubmit(values)], on the validated [values.production]. *)
Definition onSubmit (values : number) (s : State) : State :=
  match st_date s with
  | None => s
  | Some d =>
      if DateFns.after d (today s) then s
      else
        let s := set_isLoading true s in
        let s :=
          match DateFns.format d with
          | None => s                                   (* caught: "Failed to save entry" *)
          | Some formattedDate =>
              let productionValue := Num.or_else values Num.zero in
              match entriesMapRef s !! formattedDate with
              | Some existingEntry =>
                  updateEntriesState
                    (map (fun entry =>
                            if decide (date entry = formattedDate)
                            then withProduction entry productionValue
                            else entry)
                         (entries s)) s
              | None =>
                  let '(i, s) := randomUUID s in
                  let newEntry := mkEntry formattedDate productionValue i in
                  updateEntriesState (entries s ++ [newEntry]) s
              end
          end in
        set_isLoading false s
  end.

(** [form.handleSubmit(onSubmit)]: [onSubmit] runs when [formSchema]
    accepts the input. *)
Definition submit (input : jsval) (s : State) : State :=
  match formSchema input with
  | Some v => onSubmit v s
  | None => s
  end.

(** [updateEntry(date, production)].  The updater passed to
    [setEntries] is placed where it is written.  The form update, the
    toast and the animation that follow are not represented; if the
    [format] call of the form update throws, the [catch] block deletes
    the pending value as the last statement of the [try] block does. *)
Definition updateEntry (d : string) (production : number) (s : State) : State :=
  if Num.lt production Num.zero then s
  else if Num.gt production (Num.of_Z 100) then s
  else
    let s := set_pendingUpdatesRef (<[d := production]> (pendingUpdatesRef s)) s in
    let prevEntries := entries s in
    let s :=
      match list_find (fun entry => date entry = d) prevEntries with
      | Some (existingEntryIndex, existing) =>
          let updated := withProduction existing production in
          let updatedEntries := <[existingEntryIndex := updated]> prevEntries in
          let s := set_entriesMapRef (<[d := updated]> (entriesMapRef s)) s in
          let s := set_entriesRef updatedEntries s in
          set_entries updatedEntries s
      | None =>
          let '(i, s) := randomUUID s in
          let newEntry := mkEntry d production i in
          let updatedEntries := prevEntries ++ [newEntry] in
          let s := set_entriesMapRef (<[d := newEntry]> (entriesMapRef s)) s in
          let s := set_entriesRef updatedEntries s in
          set_entries updatedEntries s
      end in
    let s := set_weeklyEntriesCache None s in
    let s := set_forceUpdate (S (forceUpdate s)) s in
    set_pendingUpdatesRef (delete d (pendingUpdatesRef s)) s.

(** [handleEditKeyDown] on Enter and [handleEditBlur], on the parsed
    [value]. *)
Definition commitEdit (d : string) (value : number) (s : State) : State :=
  if Num.isNaN value then s else updateEntry d value s.

(** *** The week window *)

(** [entry?.id || crypto.randomUUID()] *)
Definition idOrFresh (entry : option SolarEntry) (s : State) : ident * State :=
  match entry with
  | Some e => if truthyId (id e) then (id e, s) else randomUUID s
  | None => randomUUID s
  end.

(** The body of the loop of [getCurrentWeekEntries] for one day. *)
Definition weekEntryAt (weekDate : string) (s : State) : SolarEntry * State :=
  match pendingUpdatesRef s !! weekDate with
  | Some pendingProduction =>
      let entry := entriesMapRef s !! weekDate in
      let '(i, s) := idOrFresh entry s in
      (mkEntry weekDate pendingProduction i, s)
  | None =>
      let entry := entriesMapRef s !! weekDate in
      let '(i, s) := idOrFresh entry s in
      (mkEntry weekDate (match entry with Some e => production e | None => Num.zero end) i, s)
  end.

(** The loop over the day offsets; the first component is [None]
    when [format] threw. *)
Fixpoint weekLoop (weekStart : JSDate) (offsets : list Z) (s : State)
    : option (list SolarEntry) * State :=
  match offsets with
  | [] => (Some [], s)
  | i :: rest =>
      match DateFns.format (DateFns.addDays weekStart i) with
      | None => (None, s)
      | Some weekDate =>
          let '(e, s) := weekEntryAt weekDate s in
          let '(r, s) := weekLoop weekStart rest s in
          (option_map (cons e) r, s)
      end
  end.

Definition weekOffsets : list Z := [0; 1; 2; 3; 4; 5; 6].

(** [getCurrentWeekEntries()]: the returned array and the state after
    the call. *)
Definition getCurrentWeekEntries (s : State) : list SolarEntry * State :=
  match st_date s with
  | None => ([], s)
  | Some d =>
      let weekStart := DateFns.startOfWeek d in
      match DateFns.format weekStart with
      | None => ([], s)                                        (* caught *)
      | Some weekStartStr =>
          let hit :=
            match weeklyEntriesCache s with
            | Some (cachedDate, cachedEntries) =>
                if decide (cachedDate = weekStartStr) then Some cachedEntries else None
            | None => None
            end in
          match hit with
          | Some cachedEntries => (cachedEntries, s)
          | None =>
              match weekLoop weekStart weekOffsets s with
              | (Some weekEntries, s) =>
                  (weekEntries, set_weeklyEntriesCache (Some (weekStartStr, weekEntries)) s)
              | (None, s) => ([], s)                            (* caught *)
              end
          end
      end
  end.

(** *** Date selection *)

(** The mount effect: [setDate(new Date())]. *)
Definition mountDate (now : Z) (s : State) : State :=
  set_st_date (Some (ValidDate now)) s.

(** [handleDateChange(newDate)]; [None] is [undefined]. *)
Definition handleDateChange (newDate : option JSDate) (s : State) : State :=
  match newDate with
  | None => s
  | Some d =>
      if negb (DateFns.isValid d) then s
      else if DateFns.after d (today s) then s
      else set_st_date (Some d) s
  end.

(** *** The debounced save *)

Definition clearTimeout (t : positive) (s : State) : State :=
  set_timers (filter (fun tm => tid tm <> t) (timers s)) s.

(** [window.setTimeout(callback, 500)], where the callback writes
    [snapshot]. *)
Definition setTimeout500 (snap : list SolarEntry) (s : State) : positive * State :=
  let t := nextTimer s in
  let s := set_timers (timers s ++ [mkTimer t (clock s + 500) snap]) s in
  (t, set_nextTimer (Pos.succ t) s).

(** [if (saveTimeoutRef.current) clearTimeout(saveTimeoutRef.current)] *)
Definition clearSaveTimeout (s : State) : State :=
  match saveTimeoutRef s with
  | Some t => clearTimeout t s
  | None => s
  end.

(** One run of the save effect after a commit in which [entries],
    [isLoading] or [isInitialized] changed: the cleanup returned by the
    previous run, if any, then the body. *)
Definition saveEffect (s : State) : State :=
  let s := if saveCleanup s then clearSaveTimeout s else s in
  if isLoading s || negb (isInitialized s) || initialRenderRef s
  then set_saveCleanup false (set_initialRenderRef false s)
  else
    let s := set_entriesRef (entries s) s in
    let s := set_entriesMapRef (mapOfEntries (entries s)) s in
    let s := clearSaveTimeout s in
    let '(t, s) := setTimeout500 (entries s) s in
    let s := set_saveTimeoutRef (Some t) s in
    set_saveCleanup true s.

(** The callback of the save timer: [safeStorage.set(STORAGE_KEY,
    dataToSave)], then [saveTimeoutRef.current = null]. *)
Definition saveCallback (snap : list SolarEntry) (s : State) : State :=
  let s := set_writes (writes s ++ [snap]) s in
  set_saveTimeoutRef None s.

(** Time passes until [t]: the timers that are due fire, oldest first.
    (All delays are equal, so the oldest timer is also the first due.) *)
Definition advance (t : Z) (s : State) : State :=
  let now := Z.max (clock s) t in
  let fired := filter (fun tm => due tm <= now) (timers s) in
  let s := set_timers (filter (fun tm => ~ due tm <= now) (timers s)) s in
  let s := fold_left (fun s tm => saveCallback (snapshot tm) s) fired s in
  set_clock now s.

(** *** Sessions *)

Inductive event : Type :=
  | Mount                                  (* the mount effect sets the date *)
  | Render                                 (* [weeklyEntries] is computed *)
  | Load (saved : option (list RawEntry))  (* the deferred load from storage *)
  | PickDate (d : option JSDate)           (* a date is chosen *)
  | Submit (input : jsval)                 (* the form is submitted *)
  | Edit (d : string) (value : number)     (* a day card is edited *)
  | Commit                                 (* the save effect runs *)
  | Tick (t : Z).                          (* time passes until [t] *)

Definition apply_event (ev : event) (s : State) : State :=
  match ev with
  | Mount => mountDate (clock s) s
  | Render => snd (getCurrentWeekEntries s)
  | Load saved => match loadEntries saved s with Some s' => s' | None => s end
  | PickDate d => handleDateChange d s
  | Submit input => submit input s
  | Edit d value => commitEdit d value s
  | Commit => saveEffect s
  | Tick t => advance t s
  end.

Definition run (evs : list event) (s : State) : State :=
  fold_left (fun s ev => apply_event ev s) evs s.

(** A mutation as the user performs it: after the handler, React commits
    and the save effect runs. *)
Definition editAndCommit (d : string) (value : number) (s : State) : State :=
  saveEffect (commitEdit d value s).

Definition submitAndCommit (input : jsval) (s : State) : State :=
  saveEffect (submit input s).

(** ** Notions used in the statements *)


(** The number of entries with [production > 0]. *)
Fixpoint countProducing (es : list SolarEntry) : nat :=
  match es with
  | [] => 0%nat
  | e :: rest =>
      ((if Num.gt (production e) Num.zero then 1 else 0) + countProducing rest)%nat
  end.

(** The summing step of [calculateStats], named. *)
Definition addProduction (sum : number) (entry : SolarEntry) : number :=
  Num.add sum (production entry).

(** The day number of the Sunday on or before the anchor [ms]. *)
Definition weekStartDay (ms : Z) : Z := DateFns.dayNumber ms - DateFns.getDay ms.

(** The production shown for the date [d]: the pending value, else the
    stored one, else 0. *)
Definition dayProduction (s : State) (d : string) : number :=
  match pendingUpdatesRef s !! d with
  | Some p => p
  | None =>
      match entriesMapRef s !! d with
      | Some e => production e
      | None => Num.zero
      end
  end.

(** The bound of the data model: [0 <= p <= 100]. *)
Definition inRange (p : number) : Prop :=
  Num.le Num.zero p = true /\ Num.le p (Num.of_Z 100) = true.

(** The entries of [l] with the date [k], in order. *)
Definition dated (k : string) (l : list SolarEntry) : list SolarEntry :=
  filter (fun e => date e = k) l.

(** The listing after [updateEntry(d, x)] has been accepted, and the
    entry it writes for [d]. *)
Definition upsertedEntry (d : string) (x : number) (s : State) : SolarEntry :=
  match list_find (fun entry => date entry = d) (entries s) with
  | Some (_, existing) => withProduction existing x
  | None => mkEntry d x (Uuid (uuidCalls s))
  end.

Definition upsertedEntries (d : string) (x : number) (s : State) : list SolarEntry :=
  match list_find (fun entry => date entry = d) (entries s) with
  | Some (i, existing) => <[i := withProduction existing x]> (entries s)
  | None => entries s ++ [mkEntry d x (Uuid (uuidCalls s))]
  end.

(** The listing that [onSubmit] passes to [updateEntriesState], for the
    formatted date [fd] and the value [pv]. *)
Definition submittedEntries (fd : string) (pv : number) (s : State) : list SolarEntry :=
  match entriesMapRef s !! fd with
  | Some _ =>
      map (fun entry => if decide (date entry = fd) then withProduction entry pv else entry)
          (entries s)
  | None => entries s ++ [mkEntry fd pv (Uuid (uuidCalls s))]
  end.

(** The map holds exactly what the listing holds. *)
Definition synced (s : State) : Prop := entriesMapRef s = mapOfEntries (entries s).

(** The invariant of the store: one entry per date, and a map in step
    with the listing. *)
Definition store_ok (s : State) : Prop :=
  NoDup (map date (entries s)) /\ synced s.


(** What [coerce] keeps of a stored element: its date, and its
    production through [Number]. *)
Definition coerced (r : RawEntry) (e : SolarEntry) : Prop :=
  date e = raw_date r /\ production e = toNumber (raw_production r).

(** The state in which the load of a batch ends: [all] are the coerced
    elements of the batch, [lastChunk] those of its last chunk and [n]
    the number of generated identifiers. *)
Definition loaded (s : State) (all lastChunk : list SolarEntry) (n : nat) : State :=
  let s := set_uuidCalls n s in
  let s := set_entriesMapRef (setAll (entriesMapRef s) all) s in
  let s := set_entries (entries s ++ lastChunk) s in
  let s := set_entriesRef (entriesRef s ++ lastChunk) s in
  let s := set_isLoading false s in
  set_isInitialized true s.

(** A stored batch as the application itself writes it: one element per
    date, productions within the bound. *)
Definition wellFormed (saved : list RawEntry) : Prop :=
  NoDup (map raw_date saved)
  /\ forall r, r ∈ saved -> inRange (toNumber (raw_production r)).

(** The invariant of the entry collection: the bound on every
    production, of the listing and of the map, one entry per date in the
    listing, and every listed date a key of the map. *)
Definition store_inv (s : State) : Prop :=
  (forall e, e ∈ entries s -> inRange (production e))
  /\ NoDup (map date (entries s))
  /\ (forall e, e ∈ entries s -> is_Some (entriesMapRef s !! date e))
  /\ (forall k e, entriesMapRef s !! k = Some e -> inRange (production e)).

(** The events that do not write entries. *)
Definition quiet (ev : event) : Prop :=
  match ev with
  | Load _ | Submit _ | Edit _ _ => False
  | _ => True
  end.

Definition notLoad (ev : event) : Prop :=
  match ev with
  | Load _ => False
  | _ => True
  end.

(** The component is past its load and its first effect run: the save
    effect schedules a write. *)
Definition ready (s : State) : Prop :=
  isLoading s = false /\ isInitialized s = true /\ initialRenderRef s = false.

(** The pending timers once the timer of [saveTimeoutRef] is cleared. *)
Definition timersCleared (s : State) : list Timer :=
  match saveTimeoutRef s with
  | Some r => filter (fun tm => tid tm <> r) (timers s)
  | None => timers s
  end.

(** At most one write is scheduled, and [saveTimeoutRef] names it. *)
Definition one_timer (s : State) : Prop :=
  timers s = [] \/ exists tm, timers s = [tm] /\ saveTimeoutRef s = Some (tid tm).

(** The upserts of a session. *)
Definition upsert (ev : event) : Prop :=
  match ev with
  | Submit _ | Edit _ _ => True
  | _ => False
  end.

(** What the debounced save reads and writes besides the entries. *)
Definition sched (s : State)
    : option positive * bool * Z * list Timer * positive * list (list SolarEntry) :=
  (saveTimeoutRef s, saveCleanup s, clock s, timers s, nextTimer s, writes s).

(** ** Further parts of the sources *)

(** *** [safeStorage]: [localStorage] behind a cache *)
Module SafeStorage.
Section safeStorage.

(** The parsed values other than [null]; [None] stands for [null]. *)
Variable V : Type.
(** [JSON.parse]: [None] when it throws. *)
Variable parse : string -> option (option V).
(** [JSON.stringify]: [None] when it throws. *)
Variable stringify : option V -> option string.
(** Whether [localStorage.setItem(key, text)] succeeds (no quota error). *)
Variable accepts : string -> string -> bool.

Record store : Type := mkStore {
  hasWindow : bool;                   (* [typeof window !== "undefined"] *)
  blocked : bool;                     (* every access to [localStorage] throws *)
  cache : gmap string (option V);
  items : gmap string string;         (* the content of [localStorage] *)
}.

Definition set_cache (c : gmap string (option V)) (st : store) : store :=
  mkStore (hasWindow st) (blocked st) c (items st).

Definition set_items (i : gmap string string) (st : store) : store :=
  mkStore (hasWindow st) (blocked st) (cache st) i.

(** [safeStorage.get(key)]: the value returned and the store after the
    call. *)
Definition get (key : string) (st : store) : option V * store :=
  if negb (hasWindow st) then (None, st)
  else
    match cache st !! key with
    | Some cached => (cached, st)
    | None =>
        if blocked st then (None, st)                       (* caught *)
        else
          match items st !! key with
          | Some (String c rest) =>
              match parse (String c rest) with
              | Some parsed => (parsed, set_cache (<[key := parsed]> (cache st)) st)
              | None => (None, st)                            (* caught *)
              end
          | _ => (None, set_cache (<[key := None]> (cache st)) st)
          end
    end.

(** [safeStorage.set(key, value)]: the boolean returned and the store
    after the call. *)
Definition set (key : string) (value : option V) (st : store) : bool * store :=
  if negb (hasWindow st) then (false, st)
  else
    let st := set_cache (<[key := value]> (cache st)) st in
    match stringify value with
    | None => (false, st)                                     (* caught *)
    | Some serialized =>
        if blocked st || negb (accepts key serialized) then (false, st)   (* caught *)
        else (true, set_items (<[key := serialized]> (items st)) st)
    end.

(** [safeStorage.clear(key)] *)
Definition clear (key : string) (st : store) : store :=
  set_cache (delete key (cache st)) st.

End safeStorage.
End SafeStorage.

(** *** The hook [useMobile] *)
Module UseMobile.

Record state : Type := mkState {
  windowWidth : Z;               (* the [windowWidth] state *)
  mounted : bool;                (* the effect has run and the listener is attached *)
  lastWidth : Z;
  rafId : option positive;
  nextRaf : positive;            (* the next id [requestAnimationFrame] returns *)
  innerWidth : Z;                (* [window.innerWidth] *)
}.

Definition initial (width : Z) : state :=
  mkState 0 false 0 None 1%positive width.

Inductive event : Type :=
  | Mount                        (* the effect runs *)
  | Resize (width : Z)           (* the window takes this width; [resize] fires *)
  | Frame                        (* the browser runs the animation frame callbacks *)
  | Unmount.                     (* the cleanup of the effect *)

(** [handleResize] *)
Definition handleResize (s : state) : state :=
  match rafId s with
  | Some _ => s
  | None =>
      mkState (windowWidth s) (mounted s) (lastWidth s) (Some (nextRaf s))
        (Pos.succ (nextRaf s)) (innerWidth s)
  end.

(** The callback given to [requestAnimationFrame]. *)
Definition frameCallback (s : state) : state :=
  let currentWidth := innerWidth s in
  if 10 <=? Z.abs (currentWidth - lastWidth s)
  then mkState currentWidth (mounted s) currentWidth None (nextRaf s) (innerWidth s)
  else mkState (windowWidth s) (mounted s) (lastWidth s) None (nextRaf s) (innerWidth s).

Definition step (ev : event) (s : state) : state :=
  match ev with
  | Mount =>
      if mounted s then s
      else mkState (innerWidth s) true (innerWidth s) None (nextRaf s) (innerWidth s)
  | Resize width =>
      let s := mkState (windowWidth s) (mounted s) (lastWidth s) (rafId s) (nextRaf s) width in
      if mounted s then handleResize s else s
  | Frame =>
      match rafId s with
      | Some _ => frameCallback s
      | None => s
      end
  | Unmount =>
      (* [removeEventListener]; [cancelAnimationFrame(rafId)] *)
      mkState (windowWidth s) false (lastWidth s) None (nextRaf s) (innerWidth s)
  end.

Definition run (evs : list event) (s : state) : state :=
  fold_left (fun s ev => step ev s) evs s.

(** The value of the hook: [windowWidth < 768]. *)
Definition useMobile (s : state) : bool := windowWidth s <? 768.

End UseMobile.

(** *** The [WeeklySummary] component *)

(** [x === y] on numbers. *)
Definition strictEq (x y : number) : bool :=
  match x, y with
  | Fin a, Fin b => Qeq_bool a b
  | _, _ => false
  end.

Module WeeklySummary.
Section formattedValues.

(** [x.toFixed(1)] *)
Variable toFixed1 : number -> string.
(** [format(parseISO(date), "EEE")]; [None] when [format] throws. *)
Variable dayName : string -> option string.

Record formatted : Type := mkFormatted {
  formattedTotal : string;
  formattedAverage : string;
  formattedMax : string;
  bestDay : string;
}.

(** The memoized [formattedValues]; the props are the four statistics
    ([entries] is not read).  [None] when [format] throws. *)
Definition formattedValues (props : WeeklyStats) : option formatted :=
  let formattedTotal := toFixed1 (weeklyTotal props) in
  let formattedAverage := toFixed1 (dailyAverage props) in
  let formattedMax :=
    if Num.gt (maxProduction props) Num.zero then toFixed1 (maxProduction props)
    else "-"%string in
  let bestDay :=
    if Num.gt (maxProduction props) Num.zero
    then match maxProductionDay props with
         | Some day => dayName (date day)
         | None => Some "kWh"%string
         end
    else Some "kWh"%string in
  match bestDay with
  | Some b => Some (mkFormatted formattedTotal formattedAverage formattedMax b)
  | None => None
  end.

End formattedValues.

(** The comparison given to [memo]: [true] skips the render. *)
Definition arePropsEqual (prevProps nextProps : WeeklyStats) : bool :=
  strictEq (weeklyTotal prevProps) (weeklyTotal nextProps)
  && strictEq (dailyAverage prevProps) (dailyAverage nextProps)
  && strictEq (maxProduction prevProps) (maxProduction nextProps)
  && bool_decide (option_map date (maxProductionDay prevProps)
                  = option_map date (maxProductionDay nextProps)).

End WeeklySummary.

(** *** Day cards and the chart switch of the tracker *)




(** [weeklyEntries.some((entry) => entry.production > 0)]: the chart is
    rendered. *)
Definition chartShown (weeklyEntries : list SolarEntry) : bool :=
  existsb (fun entry => Num.gt (production entry) Num.zero) weeklyEntries.

(** *** Editing a day card *)
Module DayEdit.
Section handlers.

(** [Number.parseFloat] *)
Variable parseFloat : string -> number.
(** [new Date(text)] *)
Variable newDate : string -> JSDate.
(** [x.toString()] *)
Variable toString : number -> string.

(** The [editingDay] and [editValue] states. *)
Record edit : Type := mkEdit {
  editingDay : option string;
  editValue : string;
}.

Inductive key : Type := Enter | Escape | OtherKey.


(** [handleEditDay(entry)] *)
Definition handleEditDay (entry : SolarEntry) (es : edit * State) : edit * State :=
  let '(e, s) := es in
  let entryDate := newDate (date entry) in
  if DateFns.after entryDate (today s) then (e, s)
  else
    let s := set_st_date (Some entryDate) s in
    (mkEdit (Some (date entry))
       (if Num.gt (production entry) Num.zero then toString (production entry)
        else EmptyString),
     s).

(** [handleEditInputChange]: the text typed so far. *)
Definition handleEditInputChange (text : string) (es : edit * State) : edit * State :=
  let '(e, s) := es in (mkEdit (editingDay e) text, s).



(** [handleManualDateChange()], on the [manualDate] state. *)
Definition handleManualDateChange (manualDate : string) (s : State) : State :=
  match manualDate with
  | EmptyString => s
  | text =>
      let selectedDate := newDate text in
      if negb (DateFns.isValid selectedDate) then s
      else if DateFns.after selectedDate (today s) then s
      else set_st_date (Some selectedDate) s
  end.

End handlers.
End DayEdit.

(** *** The theme toggle *)

(** [handleThemeChange]: the theme given to [setTheme]; [None] is an
    undefined [theme]. *)
Definition handleThemeChange (theme : option string) : string :=
  if decide (theme = Some "dark"%string) then "light"%string else "dark"%string.

(** *** Notions for the further properties *)

(** What the cache slot of the week holds agrees with the store: each of
    its entries has the production shown for its day. *)
Definition week_coherent (s : State) : Prop :=
  forall key es, weeklyEntriesCache s = Some (key, es) ->
    forall e, e ∈ es -> production e = dayProduction s (date e).

(** The events other than the load of a non-empty batch. *)
Definition noStoredEntry (ev : event) : Prop :=
  match ev with
  | Load (Some (_ :: _)) => False
  | _ => True
  end.

(** * Properties *)

(** ** Numbers *)

Arguments Num.lt : simpl never.
Arguments Num.gt : simpl never.
Arguments Num.le : simpl never.
Arguments Num.ge : simpl never.
Arguments Num.add : simpl never.
Arguments Num.mul : simpl never.
Arguments Num.div : simpl never.
Arguments Num.max : simpl never.
Arguments Num.or_else : simpl never.

Lemma Qltb_lt (a b : Q) : Num.Qltb a b = true <-> (a < b)%Q.
Proof.
  unfold Num.Qltb. rewrite negb_true_iff. split.
  - intros H. apply Qnot_le_lt. intros Hle. apply Qle_bool_iff in Hle. congruence.
  - intros H. destruct (Qle_bool b a) eqn:E; [|reflexivity].
    apply Qle_bool_iff in E. lra.
Qed.

Lemma Qltb_ge (a b : Q) : Num.Qltb a b = false <-> (b <= a)%Q.
Proof.
  unfold Num.Qltb. rewrite negb_false_iff. apply Qle_bool_iff.
Qed.

Lemma Qle_bool_false (a b : Q) : Qle_bool a b = false <-> (b < a)%Q.
Proof.
  split.
  - intros H. apply Qnot_le_lt. intros Hle. apply Qle_bool_iff in Hle. congruence.
  - intros H. destruct (Qle_bool a b) eqn:E; [|reflexivity].
    apply Qle_bool_iff in E. lra.
Qed.

Lemma Qeq_bool_false (a b : Q) : Qeq_bool a b = false <-> ~ (a == b)%Q.
Proof.
  split.
  - intros H Heq. apply Qeq_bool_iff in Heq. congruence.
  - intros H. destruct (Qeq_bool a b) eqn:E; [|reflexivity].
    apply Qeq_bool_iff in E. contradiction.
Qed.

(** Turns the boolean comparisons of the context and of the goal into
    propositions on rationals. *)
Ltac qprop :=
  repeat match goal with
  | H : Num.Qltb _ _ = true |- _ => apply Qltb_lt in H
  | H : Num.Qltb _ _ = false |- _ => apply Qltb_ge in H
  | H : Qle_bool _ _ = true |- _ => apply Qle_bool_iff in H
  | H : Qle_bool _ _ = false |- _ => apply Qle_bool_false in H
  | H : Qeq_bool _ _ = true |- _ => apply Qeq_bool_iff in H
  | H : Qeq_bool _ _ = false |- _ => apply Qeq_bool_false in H
  | |- Num.Qltb _ _ = true => apply Qltb_lt
  | |- Num.Qltb _ _ = false => apply Qltb_ge
  | |- Qle_bool _ _ = true => apply Qle_bool_iff
  | |- Qle_bool _ _ = false => apply Qle_bool_false
  | |- Qeq_bool _ _ = true => apply Qeq_bool_iff
  | |- Qeq_bool _ _ = false => apply Qeq_bool_false
  end.

Lemma eqv_refl (x : number) : x ≃ x.
Proof. destruct x; simpl; [reflexivity | exact I]. Qed.







(** ** Weekly statistics *)

Section Stats.

Import Worker_stats.

Lemma step_fields (a : Tracker_stats.acc) (e : SolarEntry) :
  Tracker_stats.total (Tracker_stats.step a e) = addProduction (Tracker_stats.total a) e
  /\ Tracker_stats.daysWithProduction (Tracker_stats.step a e)
     = (Tracker_stats.daysWithProduction a + countProducing [e])%nat
  /\ (Tracker_stats.accMax (Tracker_stats.step a e),
      Tracker_stats.accMaxDay (Tracker_stats.step a e))
     = maxStep (Tracker_stats.accMax a, Tracker_stats.accMaxDay a) e.
Proof.
  unfold Tracker_stats.step, addProduction, maxStep. simpl.
  destruct (Num.gt (production e) Num.zero); simpl;
    destruct (Num.gt (production e) (Tracker_stats.accMax a)); simpl;
    repeat split; lia.
Qed.

(** The accumulator of the single [reduce], field by field. *)
Lemma fold_step_fields (es : list SolarEntry) (a : Tracker_stats.acc) :
  let r := fold_left Tracker_stats.step es a in
  Tracker_stats.total r = fold_left addProduction es (Tracker_stats.total a)
  /\ Tracker_stats.daysWithProduction r
     = (Tracker_stats.daysWithProduction a + countProducing es)%nat
  /\ (Tracker_stats.accMax r, Tracker_stats.accMaxDay r)
     = fold_left maxStep es (Tracker_stats.accMax a, Tracker_stats.accMaxDay a).
Proof.
  revert a. induction es as [|e es IH]; intros a.
  - simpl. repeat split. lia.
  - destruct (IH (Tracker_stats.step a e)) as (Ht & Hd & Hm).
    destruct (step_fields a e) as (Ht1 & Hd1 & Hm1).
    cbn [fold_left]. cbv zeta. rewrite Ht, Hd, Hm, Ht1, Hd1, Hm1.
    repeat split. simpl. lia.
Qed.

Lemma filter_count (es : list SolarEntry) :
  length (filter (fun entry => Num.gt (production entry) Num.zero = true) es)
  = countProducing es.
Proof.
  induction es as [|e es IH]; [reflexivity|].
  rewrite filter_cons. simpl. destruct (decide _) as [H|H].
  - rewrite H. simpl. now rewrite IH.
  - destruct (Num.gt (production e) Num.zero); [congruence|]. simpl. exact IH.
Qed.

(** The worker's three passes compute what the component's single
    pass computes. *)
Lemma calculateStats_weeklyStats (es : list SolarEntry) :
  Worker_stats.calculateStats es = Tracker_stats.weeklyStats es.
Proof.
  unfold Worker_stats.calculateStats, Tracker_stats.weeklyStats.
  destruct es as [|e es]; [reflexivity|].
  change (length (e :: es) =? 0)%nat with false. cbv iota.
  destruct (fold_step_fields (e :: es) Tracker_stats.init) as (Ht & Hd & Hm).
  rewrite filter_count.
  cbv zeta in Ht, Hd, Hm. rewrite Ht, Hd.
  change (Tracker_stats.daysWithProduction Tracker_stats.init) with 0%nat.
  change (Tracker_stats.total Tracker_stats.init) with Num.zero.
  rewrite Nat.add_0_l.
  change (Tracker_stats.accMax Tracker_stats.init, Tracker_stats.accMaxDay Tracker_stats.init)
    with (Num.zero, @None SolarEntry) in Hm.
  symmetry in Hm. unfold addProduction in *.
  rewrite Hm. reflexivity.
Qed.


Lemma gt_false_gt_ge (y x m : number) :
  Num.gt y m = false -> Num.gt x m = true -> Num.ge y x = false.
Proof.
  unfold Num.gt, Num.ge, Num.lt, Num.le.
  destruct y, x, m; intros H1 H2; try discriminate; try reflexivity.
  qprop. lra.
Qed.

Lemma ge_false_gt_ge (y x e : number) :
  Num.ge y e = false -> Num.gt x e = true -> Num.ge y x = false.
Proof.
  unfold Num.gt, Num.ge, Num.lt, Num.le.
  destruct y, x, e; intros H1 H2; try discriminate; try reflexivity.
  qprop. lra.
Qed.

Lemma gt_ge_false (x e : number) : Num.gt x e = true -> Num.ge e x = false.
Proof.
  unfold Num.gt, Num.ge, Num.lt, Num.le.
  destruct x, e; intros H; try discriminate; try reflexivity.
  qprop. lra.
Qed.

Lemma gt_trans (x e m : number) :
  Num.gt x e = true -> Num.gt e m = true -> Num.gt x m = true.
Proof.
  unfold Num.gt, Num.lt.
  destruct x, e, m; intros H1 H2; try discriminate.
  qprop. lra.
Qed.

(** The scan for the maximum, started at [m0]: either nothing exceeds
    [m0], or the result is the first entry whose production is not
    exceeded later and exceeds all the earlier ones. *)
Lemma scan_max (es : list SolarEntry) (m0 : number) (d0 : option SolarEntry) :
  let r := fold_left maxStep es (m0, d0) in
  (r = (m0, d0) /\ forall x, x ∈ es -> Num.gt (production x) m0 = false)
  \/ (exists pre e post,
        es = pre ++ e :: post /\ r = (production e, Some e)
        /\ Num.gt (production e) m0 = true
        /\ (forall x, x ∈ pre -> Num.ge (production x) (production e) = false)
        /\ (forall x, x ∈ post -> Num.gt (production x) (production e) = false)).
Proof.
  induction es as [|x es IH] using rev_ind; cbv zeta.
  - left. split; [reflexivity|]. intros x Hx. inversion Hx.
  - rewrite fold_left_app. cbn [fold_left].
    destruct IH as [[Hr Hall] | (pre & e & post & Hes & Hr & Hgt & Hpre & Hpost)];
      rewrite Hr; unfold maxStep.
    + destruct (Num.gt (production x) m0) eqn:Hx.
      * right. exists es, x, []. repeat split; try assumption.
        -- intros y Hy. eapply gt_false_gt_ge; eauto.
        -- intros y Hy. inversion Hy.
      * left. split; [reflexivity|].
        intros y Hy. apply elem_of_app in Hy as [Hy|Hy]; [auto|].
        apply list_elem_of_singleton in Hy. now subst.
    + destruct (Num.gt (production x) (production e)) eqn:Hx.
      * right. exists es, x, []. repeat split.
        -- eapply gt_trans; eauto.
        -- intros y Hy. subst es.
           apply elem_of_app in Hy as [Hy|Hy].
           ++ eapply ge_false_gt_ge; eauto.
           ++ apply elem_of_cons in Hy as [->|Hy].
              ** now apply gt_ge_false.
              ** eapply gt_false_gt_ge; eauto.
        -- intros y Hy. inversion Hy.
      * right. exists pre, e, (post ++ [x]). subst es. repeat split; try assumption.
        -- now rewrite <- app_assoc.
        -- intros y Hy. apply elem_of_app in Hy as [Hy|Hy]; [auto|].
           apply list_elem_of_singleton in Hy. now subst.
Qed.


End Stats.



Example weekly_stats_of_specification :
  let st := Tracker_stats.weeklyStats
              [mkEntry "2024-01-08" (Num.of_Z 2) (Uuid 0);
               mkEntry "2024-01-09" (Num.of_Z 0) (Uuid 1);
               mkEntry "2024-01-10" (Num.of_Z 4) (Uuid 2)] in
  weeklyTotal st ≃ Num.of_Z 6 /\ dailyAverage st ≃ Num.of_Z 3
  /\ maxProduction st ≃ Num.of_Z 4
  /\ maxProductionDay st = Some (mkEntry "2024-01-10" (Num.of_Z 4) (Uuid 2)).
Proof. vm_compute. repeat split; reflexivity. Qed.

(** ** Chart projection *)

Section Chart.

Import SolarChart.

(** The loop of [maxValue] is the first component of the scan of the
    statistics. *)
Lemma pick_maxStep (es : list SolarEntry) (m : number) (d : option SolarEntry) :
  fold_left pick es m = fst (fold_left Worker_stats.maxStep es (m, d)).
Proof.
  revert m d. induction es as [|e es IH]; intros m d; [reflexivity|].
  cbn [fold_left]. unfold pick at 2. unfold Worker_stats.maxStep at 2.
  destruct (Num.gt (production e) m); apply IH.
Qed.


Lemma maxValue_unfold (es : list SolarEntry) :
  SolarChart.maxValue es
  = if (length es =? 0)%nat then Num.of_Z 10
    else Num.or_else (fold_left pick es Num.zero) (Num.of_Z 10).
Proof. reflexivity. Qed.


Lemma maxValue_no_producing (es : list SolarEntry) :
  (forall e, e ∈ es -> Num.gt (production e) Num.zero = false) ->
  SolarChart.maxValue es = Num.of_Z 10.
Proof.
  intros Hno. rewrite maxValue_unfold. destruct (length es =? 0)%nat; [reflexivity|].
  rewrite (pick_maxStep es Num.zero None).
  destruct (scan_max es Num.zero None)
    as [[Hr _] | (pre & e & post & Hes & _ & Hgt & _)]; cbv zeta in *.
  - rewrite Hr. reflexivity.
  - rewrite Hno in Hgt; [discriminate|]. subst es. apply elem_of_app. right. left.
Qed.

Lemma ge_false_gt_false (x y : number) : Num.ge x y = false -> Num.gt x y = false.
Proof.
  unfold Num.ge, Num.gt, Num.le, Num.lt. destruct x, y; intros H; try reflexivity.
  qprop. lra.
Qed.

Lemma gt_irrefl (x : number) : Num.gt x x = false.
Proof. unfold Num.gt, Num.lt. destruct x; [|reflexivity]. qprop. lra. Qed.

Lemma maxValue_producing (es : list SolarEntry) :
  (exists e, e ∈ es /\ Num.gt (production e) Num.zero = true) ->
  exists e, e ∈ es /\ SolarChart.maxValue es = production e
            /\ forall x, x ∈ es -> Num.gt (production x) (SolarChart.maxValue es) = false.
Proof.
  intros (e0 & He0 & Hpos). rewrite maxValue_unfold.
  destruct es as [|e1 es1]; [inversion He0|]. set (es := e1 :: es1) in *.
  change (length es =? 0)%nat with false. cbv iota.
  rewrite (pick_maxStep es Num.zero None).
  destruct (scan_max es Num.zero None)
    as [[_ Hall] | (pre & e & post & Hes & Hr & Hgt & Hpre & Hpost)]; cbv zeta in *.
  - rewrite (Hall e0 He0) in Hpos. discriminate.
  - rewrite Hr. cbn [fst].
    assert (Htruthy : Num.or_else (production e) (Num.of_Z 10) = production e).
    { unfold Num.or_else, Num.truthy. unfold Num.gt, Num.lt, Num.zero in Hgt.
      destruct (production e) as [q|]; [|discriminate].
      destruct (Qeq_bool q 0) eqn:Hz; [|reflexivity]. qprop. lra. }
    rewrite Htruthy. exists e. split; [|split; [reflexivity|]].
    + rewrite Hes. apply elem_of_app. right. left.
    + intros x Hx. rewrite Hes in Hx. apply elem_of_app in Hx as [Hx|Hx].
      * apply ge_false_gt_false. auto.
      * apply elem_of_cons in Hx as [->|Hx]; [apply gt_irrefl | auto].
Qed.

End Chart.

(** C5.  In the [SolarChart] component, [maxValue] is 10 for the empty
    sequence and for a sequence of zero productions, the bars of the
    empty sequence are empty, and [maxValue] is the greatest production
    as soon as one production is positive.  The worker's
    [processChartData] leaves through its early return on the empty
    sequence, with [maxValue] 0 instead of the floor 10. *)
Theorem C5_chart_max_value :
  SolarChart.maxValue [] = Num.of_Z 10
  /\ (forall parseISO, SolarChart.chartData parseISO [] = Some [])
  /\ (forall es, (forall e, e ∈ es -> production e ≃ Num.zero) ->
                 SolarChart.maxValue es = Num.of_Z 10)
  /\ (forall es, (exists e, e ∈ es /\ Num.gt (production e) Num.zero = true) ->
        exists e, e ∈ es /\ SolarChart.maxValue es = production e
          /\ forall x, x ∈ es -> Num.gt (production x) (SolarChart.maxValue es) = false)
  /\ Worker_chart.processChartData [] = Worker_chart.mkResult Num.zero []
  /\ ~ Worker_chart.maxValue (Worker_chart.processChartData []) ≃ Num.of_Z 10.
Proof.
  split; [reflexivity|]. split; [reflexivity|]. split; [|split; [|split]].
  - intros es Hz. apply maxValue_no_producing. intros e He. specialize (Hz e He).
    unfold Num.gt, Num.lt, Num.zero in *. destruct (production e); [|reflexivity].
    simpl in Hz. qprop. lra.
  - apply maxValue_producing.
  - reflexivity.
  - simpl. intros H. discriminate H.
Qed.

Lemma C5_chart_max_value_witness :
  let es := [mkEntry "2024-01-08" (Num.of_Z 2) (Uuid 0);
             mkEntry "2024-01-09" (Num.of_Z 50) (Uuid 1)] in
  exists e, e ∈ es /\ SolarChart.maxValue es = production e
    /\ forall x, x ∈ es -> Num.gt (production x) (SolarChart.maxValue es) = false.
Proof.
  cbv zeta. apply C5_chart_max_value.
  eexists. split; [left|]. reflexivity.
Defined.





Example chart_of_three_days :
  option_map (map SolarChart.heightPercentage)
    (SolarChart.chartData (fun _ => ValidDate 0)
       [mkEntry "2024-01-08" (Num.of_Z 0) (Uuid 0);
        mkEntry "2024-01-09" (Num.of_Z 1) (Uuid 1);
        mkEntry "2024-01-10" (Num.of_Z 50) (Uuid 2)])
  = Some [Num.of_Z 4; Num.of_Z 5; Fin (50 / 50 * 100)%Q].
Proof. reflexivity. Qed.

(** ** The week window *)

Lemma set_uuidCalls_self (s : State) : set_uuidCalls (uuidCalls s) s = s.
Proof. destruct s; reflexivity. Qed.

Lemma dayNumber_mul (d : Z) : DateFns.dayNumber (d * DateFns.msPerDay) = d.
Proof. unfold DateFns.dayNumber, DateFns.msPerDay. apply Z.div_mul. lia. Qed.

Lemma getDay_range (ms : Z) : 0 <= DateFns.getDay ms < 7.
Proof. unfold DateFns.getDay. apply Z.mod_pos_bound. lia. Qed.

(** The week starts on a Sunday, at most six days before the anchor. *)
Lemma weekStartDay_sunday (ms : Z) :
  (weekStartDay ms + 4) mod 7 = 0
  /\ weekStartDay ms <= DateFns.dayNumber ms < weekStartDay ms + 7.
Proof.
  unfold weekStartDay. pose proof (getDay_range ms) as Hr. split; [|lia].
  unfold DateFns.getDay in *.
  pose proof (Z.div_mod (DateFns.dayNumber ms + 4) 7 ltac:(lia)) as Hdm.
  replace (DateFns.dayNumber ms - (DateFns.dayNumber ms + 4) mod 7 + 4)
    with (((DateFns.dayNumber ms + 4) / 7) * 7) by lia.
  apply Z.mod_mul. lia.
Qed.

Lemma format_week_day (ms i : Z) :
  DateFns.format (DateFns.addDays (DateFns.startOfWeek (ValidDate ms)) i)
  = Some (DateFns.formatDay (weekStartDay ms + i)).
Proof.
  unfold DateFns.startOfWeek, DateFns.addDays, DateFns.format. f_equal. f_equal.
  fold (weekStartDay ms). rewrite <- Z.mul_add_distr_r. apply dayNumber_mul.
Qed.

Lemma format_week_start (ms : Z) :
  DateFns.format (DateFns.startOfWeek (ValidDate ms))
  = Some (DateFns.formatDay (weekStartDay ms)).
Proof.
  unfold DateFns.startOfWeek, DateFns.format. f_equal. f_equal.
  fold (weekStartDay ms). apply dayNumber_mul.
Qed.

Lemma format_invalid (d : JSDate) :
  DateFns.format (DateFns.startOfWeek d) = None <-> d = InvalidDate.
Proof.
  destruct d; simpl; split; intros H; try reflexivity; discriminate.
Qed.

Lemma idOrFresh_state (entry : option SolarEntry) (s : State) :
  exists n, snd (idOrFresh entry s) = set_uuidCalls n s /\ (uuidCalls s <= n)%nat.
Proof.
  unfold idOrFresh, randomUUID. destruct entry as [e|]; [destruct (truthyId (id e))|]; simpl.
  - exists (uuidCalls s). rewrite set_uuidCalls_self. split; [reflexivity | lia].
  - exists (S (uuidCalls s)). split; [reflexivity | lia].
  - exists (S (uuidCalls s)). split; [reflexivity | lia].
Qed.

(** One day of the week: its date, its production, and a state that
    differs at most by the number of generated identifiers. *)
Lemma weekEntryAt_spec (weekDate : string) (s : State) :
  exists i n,
    weekEntryAt weekDate s = (mkEntry weekDate (dayProduction s weekDate) i, set_uuidCalls n s)
    /\ (uuidCalls s <= n)%nat.
Proof.
  unfold weekEntryAt, dayProduction.
  destruct (pendingUpdatesRef s !! weekDate) as [p|];
    destruct (idOrFresh_state (entriesMapRef s !! weekDate) s) as (n & Hn & Hle);
    destruct (idOrFresh (entriesMapRef s !! weekDate) s) as [i s'];
    simpl in Hn; subst s'; exists i, n; (split; [|exact Hle]).
  - reflexivity.
  - destruct (entriesMapRef s !! weekDate); reflexivity.
Qed.

Lemma dayProduction_uuid (n : nat) (s : State) (d : string) :
  dayProduction (set_uuidCalls n s) d = dayProduction s d.
Proof. reflexivity. Qed.

(** The loop on a valid week start never throws; it returns one entry
    per offset, with the date of that day and the production shown for
    it. *)
Lemma weekLoop_spec (ms : Z) (offsets : list Z) (s : State) :
  exists es n,
    weekLoop (DateFns.startOfWeek (ValidDate ms)) offsets s = (Some es, set_uuidCalls n s)
    /\ (uuidCalls s <= n)%nat
    /\ map date es = map (fun i => DateFns.formatDay (weekStartDay ms + i)) offsets
    /\ map production es = map (dayProduction s) (map date es).
Proof.
  revert s. induction offsets as [|i offsets IH]; intros s.
  - exists [], (uuidCalls s). rewrite set_uuidCalls_self. simpl. repeat split; lia.
  - cbn [weekLoop]. rewrite format_week_day.
    destruct (weekEntryAt_spec (DateFns.formatDay (weekStartDay ms + i)) s)
      as (j & n1 & He & Hle1).
    rewrite He.
    destruct (IH (set_uuidCalls n1 s)) as (es & n2 & Hloop & Hle2 & Hd & Hp).
    rewrite Hloop. simpl in Hle2.
    exists (mkEntry (DateFns.formatDay (weekStartDay ms + i))
              (dayProduction s (DateFns.formatDay (weekStartDay ms + i))) j :: es), n2.
    split; [reflexivity|]. split; [lia|]. split.
    + simpl. now rewrite Hd.
    + simpl. f_equal. exact Hp.
Qed.

(** Materialization when the cache slot does not hold the week of the
    anchor: seven entries, for the seven days from the Sunday of the
    week, each with the production shown for its day; the slot then
    holds that week. *)
Lemma getCurrentWeekEntries_miss (s : State) (ms : Z) :
  st_date s = Some (ValidDate ms) ->
  (forall es, weeklyEntriesCache s <> Some (DateFns.formatDay (weekStartDay ms), es)) ->
  exists es n,
    getCurrentWeekEntries s
    = (es, set_weeklyEntriesCache (Some (DateFns.formatDay (weekStartDay ms), es))
             (set_uuidCalls n s))
    /\ length es = 7%nat
    /\ map date es = map (fun i => DateFns.formatDay (weekStartDay ms + i)) weekOffsets
    /\ map production es = map (dayProduction s) (map date es).
Proof.
  intros Hd Hmiss. unfold getCurrentWeekEntries. rewrite Hd, format_week_start.
  assert (Hhit : match weeklyEntriesCache s with
                 | Some (cachedDate, cachedEntries) =>
                     if decide (cachedDate = DateFns.formatDay (weekStartDay ms))
                     then Some cachedEntries else None
                 | None => None
                 end = None).
  { destruct (weeklyEntriesCache s) as [[cd ce]|] eqn:Hc; [|reflexivity].
    destruct (decide _) as [->|]; [|reflexivity]. exfalso. eapply Hmiss. reflexivity. }
  rewrite Hhit.
  destruct (weekLoop_spec ms weekOffsets s) as (es & n & Hloop & _ & Hdates & Hprod).
  rewrite Hloop. exists es, n. split; [reflexivity|]. split; [|split; assumption].
  rewrite <- (length_map date), Hdates, length_map. reflexivity.
Qed.

(** Materialization on a hit returns the content of the slot and
    leaves the state as it is. *)
Lemma getCurrentWeekEntries_hit (s : State) (ms : Z) (es : list SolarEntry) :
  st_date s = Some (ValidDate ms) ->
  weeklyEntriesCache s = Some (DateFns.formatDay (weekStartDay ms), es) ->
  getCurrentWeekEntries s = (es, s).
Proof.
  intros Hd Hc. unfold getCurrentWeekEntries. rewrite Hd, format_week_start, Hc.
  destruct (decide _); [reflexivity | contradiction].
Qed.


(** C10.  Without an anchor date, or with an anchor on which [format]
    throws, [getCurrentWeekEntries] returns the empty sequence and leaves
    the state unchanged; on the empty sequence the weekly statistics are
    all zero with no best day, the chart's [maxValue] is the floor 10
    and the chart has no bar. *)
Theorem C10_no_anchor_empty_week (s : State) (parseISO : string -> JSDate) :
  st_date s = None \/ st_date s = Some InvalidDate ->
  getCurrentWeekEntries s = ([], s)
  /\ Tracker_stats.weeklyStats (fst (getCurrentWeekEntries s))
     = mkStats Num.zero Num.zero Num.zero None
  /\ Worker_stats.calculateStats (fst (getCurrentWeekEntries s))
     = mkStats Num.zero Num.zero Num.zero None
  /\ SolarChart.maxValue (fst (getCurrentWeekEntries s)) = Num.of_Z 10
  /\ SolarChart.chartData parseISO (fst (getCurrentWeekEntries s)) = Some [].
Proof.
  intros H.
  assert (Hg : getCurrentWeekEntries s = ([], s)).
  { unfold getCurrentWeekEntries. destruct H as [-> | ->]; reflexivity. }
  rewrite Hg. repeat split.
Qed.

Lemma C10_no_anchor_empty_week_witness :
  getCurrentWeekEntries (initial 1704888000000) = ([], initial 1704888000000)
  /\ Tracker_stats.weeklyStats (fst (getCurrentWeekEntries (initial 1704888000000)))
     = mkStats Num.zero Num.zero Num.zero None
  /\ Worker_stats.calculateStats (fst (getCurrentWeekEntries (initial 1704888000000)))
     = mkStats Num.zero Num.zero Num.zero None
  /\ SolarChart.maxValue (fst (getCurrentWeekEntries (initial 1704888000000))) = Num.of_Z 10
  /\ SolarChart.chartData (fun _ => InvalidDate)
       (fst (getCurrentWeekEntries (initial 1704888000000))) = Some [].
Proof.
  apply (C10_no_anchor_empty_week (initial 1704888000000) (fun _ => InvalidDate)).
  left. reflexivity.
Defined.

(** ** The date-keyed map and the listing *)

Lemma setAll_snoc (m : gmap string SolarEntry) (l : list SolarEntry) (x : SolarEntry) :
  setAll m (l ++ [x]) = <[date x := x]> (setAll m l).
Proof. unfold setAll. now rewrite fold_left_app. Qed.

Lemma setAll_app (m : gmap string SolarEntry) (l1 l2 : list SolarEntry) :
  setAll m (l1 ++ l2) = setAll (setAll m l1) l2.
Proof. unfold setAll. apply fold_left_app. Qed.

(** After [map.set(entry.date, entry)] for each entry of [l], the key
    [k] holds the last entry of [l] with that date, and what it held
    before when there is none. *)
Lemma setAll_lookup (m : gmap string SolarEntry) (l : list SolarEntry) (k : string) :
  setAll m l !! k = match last (dated k l) with Some e => Some e | None => m !! k end.
Proof.
  induction l as [|x l IH] using rev_ind; [reflexivity|].
  rewrite setAll_snoc. unfold dated in *. rewrite filter_app, filter_cons, filter_nil.
  destruct (decide (date x = k)) as [Hk|Hk].
  - rewrite last_snoc. subst k. apply lookup_insert_eq.
  - rewrite app_nil_r, lookup_insert_ne by exact Hk. exact IH.
Qed.

Lemma dated_elem (k : string) (l : list SolarEntry) (e : SolarEntry) :
  e ∈ dated k l <-> e ∈ l /\ date e = k.
Proof. unfold dated. rewrite list_elem_of_filter. tauto. Qed.

Lemma map_fmap {A B} (f : A -> B) (l : list A) : map f l = f <$> l.
Proof. induction l as [|x l IH]; [reflexivity|]. simpl. now rewrite IH. Qed.

Lemma production_by_date (s : State) (es : list SolarEntry) :
  map production es = map (dayProduction s) (map date es) ->
  forall e, e ∈ es -> production e = dayProduction s (date e).
Proof.
  induction es as [|x es IH]; intros H e He; [inversion He|].
  simpl in H. injection H as Hx Hes.
  apply elem_of_cons in He as [->|He]; [exact Hx | now apply IH].
Qed.

(** ** Upserts *)


(** The state after an accepted [updateEntry(d, x)], field by field. *)
Lemma updateEntry_accepted (d : string) (x : number) (s : State) :
  Num.lt x Num.zero = false -> Num.gt x (Num.of_Z 100) = false ->
  let s' := updateEntry d x s in
  entries s' = upsertedEntries d x s
  /\ entriesRef s' = upsertedEntries d x s
  /\ entriesMapRef s' = <[d := upsertedEntry d x s]> (entriesMapRef s)
  /\ weeklyEntriesCache s' = None
  /\ pendingUpdatesRef s' = delete d (pendingUpdatesRef s)
  /\ forceUpdate s' = S (forceUpdate s)
  /\ st_date s' = st_date s /\ today s' = today s
  /\ (uuidCalls s <= uuidCalls s')%nat
  /\ (isLoading s', isInitialized s', initialRenderRef s') =
     (isLoading s, isInitialized s, initialRenderRef s)
  /\ (saveTimeoutRef s', saveCleanup s', clock s', timers s', nextTimer s', writes s') =
     (saveTimeoutRef s, saveCleanup s, clock s, timers s, nextTimer s, writes s).
Proof.
  intros H0 H100. unfold updateEntry, upsertedEntries, upsertedEntry.
  rewrite H0, H100. cbv zeta. simpl.
  destruct (list_find (fun entry => date entry = d) (entries s)) as [[i ex]|]; simpl;
    rewrite delete_insert_eq; repeat split; simpl; lia.
Qed.

Lemma updateEntry_rejected (d : string) (x : number) (s : State) :
  Num.lt x Num.zero = true \/ Num.gt x (Num.of_Z 100) = true ->
  updateEntry d x s = s.
Proof.
  intros [H|H]; unfold updateEntry; rewrite H; [reflexivity|].
  destruct (Num.lt x Num.zero); reflexivity.
Qed.

Lemma upsertedEntry_fields (d : string) (x : number) (s : State) :
  date (upsertedEntry d x s) = d /\ production (upsertedEntry d x s) = x.
Proof.
  unfold upsertedEntry.
  destruct (list_find (fun entry => date entry = d) (entries s)) as [[i ex]|] eqn:Hf.
  - apply list_find_Some in Hf as (_ & Hd & _). split; [exact Hd | reflexivity].
  - split; reflexivity.
Qed.

(** The state after [onSubmit(v)] on a valid anchor that is not after
    [today], field by field. *)
Lemma onSubmit_accepted (v : number) (s : State) (ms : Z) :
  st_date s = Some (ValidDate ms) ->
  DateFns.after (ValidDate ms) (today s) = false ->
  let fd := DateFns.formatDay (DateFns.dayNumber ms) in
  let pv := Num.or_else v Num.zero in
  let s' := onSubmit v s in
  entries s' = submittedEntries fd pv s
  /\ entriesRef s' = submittedEntries fd pv s
  /\ entriesMapRef s' = mapOfEntries (submittedEntries fd pv s)
  /\ weeklyEntriesCache s' = None
  /\ pendingUpdatesRef s' = pendingUpdatesRef s
  /\ forceUpdate s' = S (forceUpdate s)
  /\ st_date s' = st_date s /\ today s' = today s
  /\ (uuidCalls s <= uuidCalls s')%nat
  /\ (isLoading s', isInitialized s', initialRenderRef s') =
     (false, isInitialized s, initialRenderRef s)
  /\ (saveTimeoutRef s', saveCleanup s', clock s', timers s', nextTimer s', writes s') =
     (saveTimeoutRef s, saveCleanup s, clock s, timers s, nextTimer s, writes s).
Proof.
  intros Hd Hafter. unfold onSubmit, submittedEntries. rewrite Hd, Hafter. cbv zeta. simpl.
  destruct (entriesMapRef s !! DateFns.formatDay (DateFns.dayNumber ms)) as [ex|]; simpl;
    repeat split; simpl; first [assumption | lia].
Qed.


Lemma formSchema_Some (input : jsval) (v : number) :
  formSchema input = Some v -> v = toNumber input /\ Num.isNaN v = false /\ inRange v.
Proof.
  unfold formSchema. destruct (Num.isNaN (toNumber input)) eqn:Hn; [discriminate|].
  destruct (Num.ge (toNumber input) Num.zero && Num.le (toNumber input) (Num.of_Z 100)) eqn:Hr;
    [|discriminate].
  intros [= <-]. apply andb_true_iff in Hr as [Hge Hle]. repeat split; assumption.
Qed.






Example week_after_edit :
  map production
    (fst (getCurrentWeekEntries
            (updateEntry "2024-01-08" (Num.of_Z 5)
               (run [Mount; Render] (initial 1704888000000)))))
  = [Num.zero; Num.of_Z 5; Num.zero; Num.zero; Num.zero; Num.zero; Num.zero].
Proof. vm_compute. reflexivity. Qed.

(** ** The store invariant *)

Lemma dated_nil (k : string) (l : list SolarEntry) :
  (forall e, e ∈ l -> date e <> k) <-> dated k l = [].
Proof.
  unfold dated. induction l as [|x l IH]; [split; [reflexivity | intros _ e He; inversion He]|].
  rewrite filter_cons. destruct (decide (date x = k)) as [Hk|Hk]; split.
  - intros H. exfalso. apply (H x); [left | exact Hk].
  - discriminate.
  - intros H. apply IH. intros e He. apply H. now right.
  - intros H e He. apply elem_of_cons in He as [->|He]; [exact Hk|].
    destruct IH as [_ IH]. now apply IH.
Qed.

Lemma date_elem (l : list SolarEntry) (e : SolarEntry) : e ∈ l -> date e ∈ map date l.
Proof. intros He. rewrite map_fmap. now apply list_elem_of_fmap_2. Qed.



Lemma store_ok_updateEntry (d : string) (x : number) (s : State) :
  store_ok s -> store_ok (updateEntry d x s).
Proof.
  intros Hok. destruct (Num.lt x Num.zero) eqn:H0.
  { rewrite updateEntry_rejected; [exact Hok | now left]. }
  destruct (Num.gt x (Num.of_Z 100)) eqn:H100.
  { rewrite updateEntry_rejected; [exact Hok | now right]. }
  destruct (updateEntry_accepted d x s H0 H100) as (He & _ & Hm & _). cbv zeta in *.
  destruct Hok as [Hnd Hsync]. unfold store_ok, synced. rewrite He, Hm, Hsync.
  unfold upsertedEntries, upsertedEntry.
  destruct (list_find (fun entry => date entry = d) (entries s)) as [[i ex]|] eqn:Hf.
  - apply list_find_Some in Hf as (Hi & Hd & _).
    assert (Hdates : map date (<[i := withProduction ex x]> (entries s)) = map date (entries s)).
    { rewrite !map_fmap, list_fmap_insert. apply list_insert_id.
      rewrite list_lookup_fmap, Hi. simpl. reflexivity. }
    split; [now rewrite Hdates|].
    pose proof (take_drop_middle _ _ _ Hi) as Hsplit.
    rewrite insert_take_drop by (eapply lookup_lt_Some; exact Hi).
    set (l1 := take i (entries s)) in *. set (l2 := drop (S i) (entries s)) in *.
    rewrite <- Hsplit in Hnd. rewrite <- Hsplit.
    rewrite map_app in Hnd. simpl in Hnd.
    apply NoDup_app in Hnd as (_ & Hdisj & Hnd2).
    apply NoDup_cons in Hnd2 as [Hd2 _].
    apply map_eq. intros k. unfold mapOfEntries.
    destruct (decide (d = k)) as [<-|Hk].
    + rewrite lookup_insert_eq, setAll_lookup. unfold dated.
      rewrite filter_app, filter_cons. simpl.
      destruct (decide (date ex = d)) as [_|]; [|contradiction].
      assert (Hnil : dated d l2 = []).
      { apply dated_nil. intros e Hel Heq. apply Hd2. rewrite Hd, <- Heq. now apply date_elem. }
      unfold dated in Hnil. rewrite Hnil. now rewrite last_snoc.
    + rewrite lookup_insert_ne by exact Hk. rewrite !setAll_lookup. unfold dated.
      rewrite !filter_app, !filter_cons. simpl.
      destruct (decide (date ex = k)) as [Heq|_]; [congruence|]. reflexivity.
  - apply list_find_None in Hf. rewrite Forall_forall in Hf. split.
    + rewrite map_app. simpl. apply NoDup_app. split; [exact Hnd|]. split.
      * intros k Hk Hk'. apply list_elem_of_singleton in Hk'. subst k.
        rewrite map_fmap in Hk. apply list_elem_of_fmap in Hk as (e & Heq & Hel).
        apply (Hf e Hel). now symmetry.
      * apply NoDup_singleton.
    + unfold mapOfEntries. now rewrite setAll_snoc.
Qed.

Lemma store_ok_onSubmit (v : number) (s : State) : store_ok s -> store_ok (onSubmit v s).
Proof.
  intros Hok. unfold onSubmit.
  destruct (st_date s) as [dt|] eqn:Hd; [|exact Hok].
  destruct (DateFns.after dt (today s)) eqn:Hafter; [exact Hok|].
  destruct dt as [ms|]; [|destruct Hok; split; assumption].
  destruct (onSubmit_accepted v s ms Hd Hafter) as (He & _ & Hm & _). cbv zeta in *.
  unfold onSubmit in He, Hm. rewrite Hd, Hafter in He, Hm.
  unfold store_ok, synced. rewrite He, Hm. split; [|reflexivity].
  destruct Hok as [Hnd Hsync]. unfold submittedEntries.
  destruct (entriesMapRef s !! DateFns.formatDay (DateFns.dayNumber ms)) as [ex|] eqn:Hl.
  - rewrite map_map.
    erewrite map_ext; [exact Hnd|].
    intros e. simpl. destruct (decide _); reflexivity.
  - rewrite map_app. simpl. apply NoDup_app. split; [exact Hnd|]. split; [|apply NoDup_singleton].
    intros k Hk Hk'. apply list_elem_of_singleton in Hk'. subst k.
    rewrite map_fmap in Hk. apply list_elem_of_fmap in Hk as (e & Heq & Hel).
    rewrite Hsync in Hl. unfold mapOfEntries in Hl. rewrite setAll_lookup, lookup_empty in Hl.
    destruct (last (dated (DateFns.formatDay (DateFns.dayNumber ms)) (entries s))) eqn:Hlast;
      [discriminate|].
    apply last_None in Hlast. apply (proj2 (dated_nil _ _) Hlast e Hel). now symmetry.
Qed.





Example upsert_twice_keeps_id :
  let s := run [Mount; Render] (initial 1704888000000) in
  let s1 := updateEntry "2024-01-08" (Num.of_Z 5) s in
  let s2 := updateEntry "2024-01-08" (Num.of_Z 7) s1 in
  entriesMapRef s1 !! "2024-01-08"%string
  = Some (mkEntry "2024-01-08" (Num.of_Z 5) (Uuid 7))
  /\ entriesMapRef s2 !! "2024-01-08"%string
     = Some (mkEntry "2024-01-08" (Num.of_Z 7) (Uuid 7))
  /\ entries s2 = [mkEntry "2024-01-08" (Num.of_Z 7) (Uuid 7)].
Proof. vm_compute. repeat split; reflexivity. Qed.

(** ** The bulk load *)

Lemma coerceAll_app (a b : list RawEntry) (n : nat) :
  coerceAll (a ++ b) n
  = (fst (coerceAll a n) ++ fst (coerceAll b (snd (coerceAll a n))),
     snd (coerceAll b (snd (coerceAll a n)))).
Proof.
  revert n. induction a as [|r a IH]; intros n; simpl.
  - now destruct (coerceAll b n).
  - destruct (coerce r n) as [e n1]. rewrite IH.
    destruct (coerceAll a n1) as [ea n2]. simpl.
    destruct (coerceAll b n2) as [eb n3]. reflexivity.
Qed.

Lemma coerce_coerced (r : RawEntry) (n : nat) : coerced r (fst (coerce r n)).
Proof.
  unfold coerce, coerced. destruct (raw_id r) as [i|]; [destruct (truthyId (Loaded i))|];
    simpl; split; reflexivity.
Qed.

(** Every element of the batch is coerced, in order; none is dropped. *)
Lemma coerceAll_coerced (saved : list RawEntry) (n : nat) :
  Forall2 coerced saved (fst (coerceAll saved n)).
Proof.
  revert n. induction saved as [|r saved IH]; intros n; simpl; [constructor|].
  pose proof (coerce_coerced r n) as Hr. destruct (coerce r n) as [e n1].
  specialize (IH n1). destruct (coerceAll saved n1) as [es n2]. simpl in *.
  now constructor.
Qed.

(** [processChunk] terminates on the fuel that [loadEntries] gives it,
    in the state [loaded]: the map has received every coerced element,
    the listing the elements of the last chunk only. *)
Lemma processChunk_spec (fuel : nat) (saved : list RawEntry) (startIndex : nat) (s : State) :
  (startIndex <= length saved)%nat ->
  (1 <= fuel)%nat ->
  (length saved - startIndex <= fuel * 50)%nat ->
  let all := fst (coerceAll (drop startIndex saved) (uuidCalls s)) in
  let n := snd (coerceAll (drop startIndex saved) (uuidCalls s)) in
  exists pre lastChunk,
    all = pre ++ lastChunk
    /\ ((length saved - startIndex <= 50)%nat -> pre = [])
    /\ processChunk fuel saved startIndex 50 s = Some (loaded s all lastChunk n).
Proof.
  revert startIndex s. induction fuel as [|fuel IH]; intros startIndex s Hstart Hfuel Hlen;
    [lia|]. cbv zeta. cbn [processChunk].
  destruct (Nat.min (startIndex + 50) (length saved) <? length saved)%nat eqn:Hmore.
  - apply Nat.ltb_lt in Hmore.
    assert (Hend : Nat.min (startIndex + 50) (length saved) = (startIndex + 50)%nat) by lia.
    rewrite Hend. replace (startIndex + 50 - startIndex)%nat with 50%nat by lia.
    assert (Hsplit : drop startIndex saved
                     = take 50 (drop startIndex saved) ++ drop (startIndex + 50) saved).
    { rewrite <- (take_drop 50 (drop startIndex saved)) at 1. now rewrite drop_drop. }
    assert (Hcall : coerceAll (drop startIndex saved) (uuidCalls s)
                    = (fst (coerceAll (take 50 (drop startIndex saved)) (uuidCalls s))
                       ++ fst (coerceAll (drop (startIndex + 50) saved)
                                 (snd (coerceAll (take 50 (drop startIndex saved))
                                         (uuidCalls s)))),
                       snd (coerceAll (drop (startIndex + 50) saved)
                              (snd (coerceAll (take 50 (drop startIndex saved))
                                      (uuidCalls s)))))).
    { rewrite Hsplit at 1. apply coerceAll_app. }
    rewrite Hcall. clear Hcall Hsplit.
    destruct (coerceAll (take 50 (drop startIndex saved)) (uuidCalls s)) as [pc n1] eqn:Hpc.
    cbn [fst snd].
    set (s1 := set_entriesMapRef (setAll (entriesMapRef (set_uuidCalls n1 s)) pc)
                 (set_uuidCalls n1 s)).
    destruct (IH (startIndex + 50)%nat s1) as (pre & lastChunk & Hall & _ & Hrun);
      [lia | lia | lia |].
    cbv zeta in Hall, Hrun. change (uuidCalls s1) with n1 in Hall, Hrun.
    exists (pc ++ pre), lastChunk. split; [|split].
    + rewrite Hall. now rewrite app_assoc.
    + intros Hle. lia.
    + rewrite Hrun. f_equal. unfold loaded, s1. simpl. now rewrite setAll_app.
  - apply Nat.ltb_ge in Hmore.
    assert (Hend : Nat.min (startIndex + 50) (length saved) = length saved) by lia.
    rewrite Hend.
    assert (Hchunk : take (length saved - startIndex) (drop startIndex saved)
                     = drop startIndex saved).
    { apply take_ge. rewrite length_drop. lia. }
    rewrite Hchunk.
    destruct (coerceAll (drop startIndex saved) (uuidCalls s)) as [pc n1]. cbn [fst snd].
    exists [], pc. split; [reflexivity|]. split; [reflexivity|]. reflexivity.
Qed.

(** The load always completes. *)
Lemma loadEntries_spec (saved : list RawEntry) (s : State) :
  let all := fst (coerceAll saved (uuidCalls s)) in
  let n := snd (coerceAll saved (uuidCalls s)) in
  exists pre lastChunk,
    all = pre ++ lastChunk
    /\ ((length saved <= 50)%nat -> pre = [])
    /\ loadEntries (Some saved) s = Some (loaded s all lastChunk n).
Proof.
  cbv zeta. unfold loadEntries.
  destruct (processChunk_spec (S (length saved)) saved 0 s) as (pre & lc & Hall & Hone & Hrun);
    [lia | lia | lia |].
  cbv zeta in *. rewrite drop_0 in Hall, Hrun.
  exists pre, lc. split; [exact Hall|]. split; [|exact Hrun].
  intros Hle. apply Hone. lia.
Qed.

Lemma loadEntries_total (saved : option (list RawEntry)) (s : State) :
  is_Some (loadEntries saved s).
Proof.
  destruct saved as [l|]; [|eexists; reflexivity].
  destruct (loadEntries_spec l s) as (pre & lc & _ & _ & Hrun). rewrite Hrun. eexists; reflexivity.
Qed.




(** ** The week after the load *)

(** C2.  The week is first materialized at the render that follows the
    mount and its effects, before the deferred load; the load fills the map without
    emptying the cache slot, as [updateEntry] and [updateEntriesState]
    do.  After a load that stores 5 kWh for Monday 2024-01-08, the
    materialization for the anchor 2024-01-10 still returns the seven
    days from Sunday 2024-01-07, with production 0 on Monday: not the
    stored value, while no value is pending.  (When the slot does not
    hold the week, [getCurrentWeekEntries_miss] gives the seven entries
    with the pending, else stored, else zero productions.) *)
Theorem C2_week_stale_after_load :
  let saved := [mkRaw (Some "a") "2024-01-08" (JNum (Num.of_Z 5))] in
  let s := run [Mount; Commit; Render; Load (Some saved); Commit] (initial 1704888000000) in
  st_date s = Some (ValidDate 1704888000000)
  /\ entriesMapRef s !! "2024-01-08"%string
     = Some (mkEntry "2024-01-08" (Num.of_Z 5) (Loaded "a"))
  /\ pendingUpdatesRef s !! "2024-01-08"%string = None
  /\ dayProduction s "2024-01-08" = Num.of_Z 5
  /\ weeklyEntriesCache s = Some ("2024-01-07"%string, fst (getCurrentWeekEntries s))
  /\ map date (fst (getCurrentWeekEntries s))
     = ["2024-01-07"; "2024-01-08"; "2024-01-09"; "2024-01-10";
        "2024-01-11"; "2024-01-12"; "2024-01-13"]%string
  /\ map production (fst (getCurrentWeekEntries s))
     = [Num.zero; Num.zero; Num.zero; Num.zero; Num.zero; Num.zero; Num.zero].
Proof.
  cbv zeta. repeat (apply conj; [vm_compute; reflexivity|]). vm_compute. reflexivity.
Qed.

(** ** The invariant of the entry collection *)

Lemma set_weeklyEntriesCache_self (s : State) :
  set_weeklyEntriesCache (weeklyEntriesCache s) s = s.
Proof. destruct s; reflexivity. Qed.

(** Materialization writes the cache slot and the identifier counter
    only. *)
Lemma getCurrentWeekEntries_frame (s : State) :
  exists c n, snd (getCurrentWeekEntries s) = set_weeklyEntriesCache c (set_uuidCalls n s).
Proof.
  assert (Hself : s = set_weeklyEntriesCache (weeklyEntriesCache s) (set_uuidCalls (uuidCalls s) s))
    by (destruct s; reflexivity).
  destruct (st_date s) as [[ms|]|] eqn:Hd.
  - destruct (weeklyEntriesCache s) as [[cd ce]|] eqn:Hc.
    + destruct (decide (cd = DateFns.formatDay (weekStartDay ms))) as [->|Hne].
      * rewrite (getCurrentWeekEntries_hit s ms ce Hd Hc). eexists _, _. exact Hself.
      * destruct (getCurrentWeekEntries_miss s ms Hd) as (es & n & Hg & _).
        { intros es Heq. rewrite Hc in Heq. congruence. }
        rewrite Hg. eexists _, _. reflexivity.
    + destruct (getCurrentWeekEntries_miss s ms Hd) as (es & n & Hg & _).
      { intros es Heq. rewrite Hc in Heq. discriminate. }
      rewrite Hg. eexists _, _. reflexivity.
  - unfold getCurrentWeekEntries. rewrite Hd. eexists _, _. exact Hself.
  - unfold getCurrentWeekEntries. rewrite Hd. eexists _, _. exact Hself.
Qed.

Lemma saveCallbacks_store (fired : list Timer) (s : State) :
  let s' := fold_left (fun s tm => saveCallback (snapshot tm) s) fired s in
  entries s' = entries s /\ entriesMapRef s' = entriesMapRef s /\ timers s' = timers s
  /\ clock s' = clock s
  /\ writes s' = writes s ++ map snapshot fired
  /\ saveTimeoutRef s' = match fired with [] => saveTimeoutRef s | _ => None end.
Proof.
  revert s. induction fired as [|tm fired IH]; intros s; cbv zeta.
  - simpl. rewrite app_nil_r. repeat split.
  - cbn [fold_left]. destruct (IH (saveCallback (snapshot tm) s)) as (He & Hm & Ht & Hc & Hw & Hr).
    cbv zeta in *. rewrite He, Hm, Ht, Hc, Hw, Hr. simpl. rewrite <- app_assoc. simpl.
    repeat split. now destruct fired.
Qed.

Lemma advance_store (t : Z) (s : State) :
  entries (advance t s) = entries s /\ entriesMapRef (advance t s) = entriesMapRef s.
Proof.
  unfold advance. cbv zeta.
  match goal with
  | |- context [fold_left ?f ?l ?a] =>
      destruct (saveCallbacks_store l a) as (He & Hm & _)
  end.
  cbv zeta in *. simpl in *. rewrite He, Hm. split; reflexivity.
Qed.

Lemma filter_twice {A} (P : A -> Prop) `{forall x, Decision (P x)} (l : list A) :
  filter P (filter P l) = filter P l.
Proof.
  induction l as [|x l IH]; [reflexivity|].
  rewrite filter_cons. destruct (decide (P x)) as [Hp|Hp]; [|exact IH].
  rewrite filter_cons. destruct (decide (P x)); [now rewrite IH | contradiction].
Qed.

Lemma clearSaveTimeout_eq (s : State) : clearSaveTimeout s = set_timers (timersCleared s) s.
Proof.
  unfold clearSaveTimeout, timersCleared, clearTimeout.
  destruct (saveTimeoutRef s); [reflexivity | destruct s; reflexivity].
Qed.

Lemma timersCleared_twice (s : State) :
  timersCleared (set_timers (timersCleared s) s) = timersCleared s.
Proof.
  unfold timersCleared. simpl. destruct (saveTimeoutRef s); [apply filter_twice | reflexivity].
Qed.

(** The save effect when the component is ready: the timer of
    [saveTimeoutRef] is cleared and a write of the current entries is
    scheduled 500 ms from now. *)
Lemma saveEffect_ready (s : State) :
  ready s ->
  saveEffect s
  = set_saveCleanup true
      (set_saveTimeoutRef (Some (nextTimer s))
         (set_nextTimer (Pos.succ (nextTimer s))
            (set_timers (timersCleared s ++ [mkTimer (nextTimer s) (clock s + 500) (entries s)])
               (set_entriesMapRef (mapOfEntries (entries s))
                  (set_entriesRef (entries s) s))))).
Proof.
  intros (Hl & Hi & Hf). unfold saveEffect, setTimeout500. cbv zeta.
  destruct (saveCleanup s).
  - rewrite ?clearSaveTimeout_eq. simpl. rewrite Hl, Hi, Hf. simpl.
    rewrite ?clearSaveTimeout_eq. simpl.
    change (timersCleared (set_entriesMapRef _ (set_entriesRef _ (set_timers ?t s))))
      with (timersCleared (set_timers t s)).
    rewrite timersCleared_twice. reflexivity.
  - rewrite Hl, Hi, Hf. simpl. rewrite ?clearSaveTimeout_eq. simpl. reflexivity.
Qed.

(** The save effect when the component is not ready: nothing is
    scheduled. *)
Lemma saveEffect_not_ready (s : State) :
  ~ ready s ->
  saveEffect s
  = set_saveCleanup false
      (set_initialRenderRef false
         (if saveCleanup s then set_timers (timersCleared s) s else s)).
Proof.
  intros Hnr. unfold saveEffect. cbv zeta.
  assert (Hg : isLoading s || negb (isInitialized s) || initialRenderRef s = true).
  { unfold ready in Hnr.
    destruct (isLoading s), (isInitialized s), (initialRenderRef s); simpl; try reflexivity.
    exfalso. apply Hnr. repeat split. }
  destruct (saveCleanup s).
  - rewrite clearSaveTimeout_eq. simpl. rewrite Hg. reflexivity.
  - rewrite Hg. reflexivity.
Qed.

Lemma ready_dec (s : State) : ready s \/ ~ ready s.
Proof.
  unfold ready. destruct (isLoading s), (isInitialized s), (initialRenderRef s);
    first [left; repeat split; reflexivity | right; intros (H1 & H2 & H3); discriminate].
Qed.

Lemma saveEffect_store (s : State) :
  entries (saveEffect s) = entries s
  /\ (entriesMapRef (saveEffect s) = entriesMapRef s
      \/ entriesMapRef (saveEffect s) = mapOfEntries (entries s)).
Proof.
  destruct (ready_dec s) as [Hr|Hr].
  - rewrite (saveEffect_ready s Hr). simpl. split; [reflexivity | now right].
  - rewrite (saveEffect_not_ready s Hr). destruct (saveCleanup s); simpl;
      (split; [reflexivity | now left]).
Qed.

Lemma mapOfEntries_lookup_Some (l : list SolarEntry) (k : string) (e : SolarEntry) :
  mapOfEntries l !! k = Some e -> e ∈ l /\ date e = k.
Proof.
  unfold mapOfEntries. rewrite setAll_lookup, lookup_empty.
  destruct (last (dated k l)) as [e0|] eqn:Hlast; [|discriminate].
  intros [= <-]. apply dated_elem. eapply last_Some_elem_of. exact Hlast.
Qed.

Lemma mapOfEntries_is_Some (l : list SolarEntry) (e : SolarEntry) :
  e ∈ l -> is_Some (mapOfEntries l !! date e).
Proof.
  intros He. unfold mapOfEntries. rewrite setAll_lookup.
  assert (Hin : e ∈ dated (date e) l) by (apply dated_elem; split; [assumption | reflexivity]).
  destruct (last (dated (date e) l)) eqn:Hlast; [eexists; reflexivity|].
  apply last_None in Hlast. rewrite Hlast in Hin. inversion Hin.
Qed.

(** A listing within the bound, with one entry per date, and the map
    rebuilt from it. *)
Lemma store_inv_rebuilt (s : State) (l : list SolarEntry) :
  entries s = l -> entriesMapRef s = mapOfEntries l ->
  (forall e, e ∈ l -> inRange (production e)) -> NoDup (map date l) ->
  store_inv s.
Proof.
  intros He Hm Hb Hnd. unfold store_inv. rewrite He, Hm.
  split; [exact Hb|]. split; [exact Hnd|]. split.
  - intros e Hel. now apply mapOfEntries_is_Some.
  - intros k e Hl. apply mapOfEntries_lookup_Some in Hl as [Hel _]. now apply Hb.
Qed.

Lemma list_elem_of_insert_inv {A} (l : list A) (i : nat) (y x : A) :
  x ∈ <[i := y]> l -> x = y \/ x ∈ l.
Proof.
  revert i. induction l as [|a l IH]; intros i Hx; [inversion Hx|].
  destruct i as [|i]; simpl in Hx.
  - apply elem_of_cons in Hx as [->|Hx]; [now left | right; now right].
  - apply elem_of_cons in Hx as [->|Hx]; [right; left|].
    destruct (IH i Hx) as [->|Hin]; [now left | right; now right].
Qed.

Lemma inRange_zero : inRange Num.zero.
Proof. split; reflexivity. Qed.

Lemma inRange_or_else (v : number) : inRange v -> inRange (Num.or_else v Num.zero).
Proof.
  intros Hv. unfold Num.or_else. destruct (Num.truthy v); [exact Hv | apply inRange_zero].
Qed.

Lemma store_inv_updateEntry (d : string) (x : number) (s : State) :
  Num.isNaN x = false -> store_inv s -> store_inv (updateEntry d x s).
Proof.
  intros Hnan Hinv. destruct (Num.lt x Num.zero) eqn:H0.
  { rewrite updateEntry_rejected; [exact Hinv | now left]. }
  destruct (Num.gt x (Num.of_Z 100)) eqn:H100.
  { rewrite updateEntry_rejected; [exact Hinv | now right]. }
  assert (Hx : inRange x).
  { unfold inRange, Num.gt, Num.lt, Num.le, Num.zero, Num.of_Z in *.
    destruct x as [q|]; [|discriminate]. simpl in *. split; qprop; lra. }
  destruct (updateEntry_accepted d x s H0 H100) as (He & _ & Hm & _). cbv zeta in *.
  destruct Hinv as (Hb & Hnd & Hkeys & Hvals).
  destruct (upsertedEntry_fields d x s) as [Hud Hup].
  unfold store_inv. rewrite He, Hm.
  assert (Hcases : forall e, e ∈ upsertedEntries d x s -> e = upsertedEntry d x s \/ e ∈ entries s).
  { unfold upsertedEntries, upsertedEntry.
    destruct (list_find (fun entry => date entry = d) (entries s)) as [[i ex]|]; intros e Hel.
    - now apply list_elem_of_insert_inv in Hel.
    - apply elem_of_app in Hel as [Hel|Hel]; [now right|].
      apply list_elem_of_singleton in Hel. now left. }
  split; [|split; [|split]].
  - intros e Hel. destruct (Hcases e Hel) as [->|Hin]; [now rewrite Hup | now apply Hb].
  - unfold upsertedEntries.
    destruct (list_find (fun entry => date entry = d) (entries s)) as [[i ex]|] eqn:Hf.
    + apply list_find_Some in Hf as (Hi & Hd & _).
      rewrite !map_fmap, list_fmap_insert, list_insert_id; [now rewrite <- map_fmap|].
      rewrite list_lookup_fmap, Hi. reflexivity.
    + apply list_find_None in Hf. rewrite Forall_forall in Hf.
      rewrite map_app. simpl. apply NoDup_app. split; [exact Hnd|]. split; [|apply NoDup_singleton].
      intros k Hk Hk'. apply list_elem_of_singleton in Hk'. subst k.
      rewrite map_fmap in Hk. apply list_elem_of_fmap in Hk as (e & Heq & Hel).
      apply (Hf e Hel). now symmetry.
  - intros e Hel. destruct (Hcases e Hel) as [->|Hin].
    + rewrite Hud, lookup_insert_eq. eexists; reflexivity.
    + destruct (decide (d = date e)) as [<-|Hne].
      * rewrite lookup_insert_eq. eexists; reflexivity.
      * rewrite lookup_insert_ne by exact Hne. now apply Hkeys.
  - intros k e Hl. destruct (decide (d = k)) as [<-|Hne].
    + rewrite lookup_insert_eq in Hl. injection Hl as <-. now rewrite Hup.
    + rewrite lookup_insert_ne in Hl by exact Hne. eapply Hvals. exact Hl.
Qed.

Lemma store_inv_onSubmit (v : number) (s : State) :
  inRange v -> store_inv s -> store_inv (onSubmit v s).
Proof.
  intros Hv Hinv.
  assert (Hflag : forall b, store_inv (set_isLoading b s)) by (intros b; exact Hinv).
  unfold onSubmit.
  destruct (st_date s) as [dt|] eqn:Hd; [|exact Hinv].
  destruct (DateFns.after dt (today s)) eqn:Hafter; [exact Hinv|].
  destruct dt as [ms|]; [|exact Hinv].
  destruct (onSubmit_accepted v s ms Hd Hafter) as (He & _ & Hm & _). cbv zeta in *.
  unfold onSubmit in He, Hm. rewrite Hd, Hafter in He, Hm.
  pose proof (inRange_or_else v Hv) as Hpv.
  destruct Hinv as (Hb & Hnd & Hkeys & Hvals).
  eapply store_inv_rebuilt; [exact He | exact Hm | |]; unfold submittedEntries;
    destruct (entriesMapRef s !! DateFns.formatDay (DateFns.dayNumber ms)) as [ex|] eqn:Hl.
  - intros e Hel. rewrite map_fmap in Hel. apply list_elem_of_fmap in Hel as (e0 & -> & Hel).
    destruct (decide _); [exact Hpv | now apply Hb].
  - intros e Hel. apply elem_of_app in Hel as [Hel|Hel]; [now apply Hb|].
    apply list_elem_of_singleton in Hel. subst e. exact Hpv.
  - rewrite map_map. erewrite map_ext; [exact Hnd|].
    intros e. simpl. destruct (decide _); reflexivity.
  - rewrite map_app. simpl. apply NoDup_app. split; [exact Hnd|]. split; [|apply NoDup_singleton].
    intros k Hk Hk'. apply list_elem_of_singleton in Hk'. subst k.
    rewrite map_fmap in Hk. apply list_elem_of_fmap in Hk as (e & Heq & Hel).
    destruct (Hkeys e Hel) as [e1 He1]. rewrite <- Heq, Hl in He1. discriminate.
Qed.

(** Every event but the load keeps the invariant. *)
Lemma store_inv_event (ev : event) (s : State) :
  notLoad ev -> store_inv s -> store_inv (apply_event ev s).
Proof.
  intros Hev Hinv. destruct ev as [| |saved|d|input|d value| |t]; simpl in *.
  - exact Hinv.
  - destruct (getCurrentWeekEntries_frame s) as (c & n & ->). exact Hinv.
  - contradiction.
  - unfold handleDateChange. destruct d as [d|]; [|exact Hinv].
    destruct (negb (DateFns.isValid d)); [exact Hinv|].
    destruct (DateFns.after d (today s)); exact Hinv.
  - unfold submit. destruct (formSchema input) as [v|] eqn:Hv; [|exact Hinv].
    apply store_inv_onSubmit; [|exact Hinv]. apply formSchema_Some in Hv. tauto.
  - unfold commitEdit. destruct (Num.isNaN value) eqn:Hn; [exact Hinv|].
    now apply store_inv_updateEntry.
  - destruct (saveEffect_store s) as [He [Hm|Hm]]; destruct Hinv as (Hb & Hnd & Hkeys & Hvals).
    + unfold store_inv. rewrite He, Hm.
      split; [exact Hb|]. split; [exact Hnd|]. split; [exact Hkeys | exact Hvals].
    + eapply store_inv_rebuilt; eauto.
  - destruct (advance_store t s) as [He Hm]. unfold store_inv. now rewrite He, Hm.
Qed.

Lemma store_inv_run (evs : list event) (s : State) :
  Forall notLoad evs -> store_inv s -> store_inv (run evs s).
Proof.
  revert s. induction evs as [|ev evs IH]; intros s Hall Hinv; [exact Hinv|].
  apply Forall_cons in Hall as [Hev Hall]. simpl. apply IH; [exact Hall|].
  now apply store_inv_event.
Qed.

Lemma quiet_event_store (ev : event) (s : State) :
  quiet ev ->
  entries (apply_event ev s) = entries s
  /\ (entriesMapRef (apply_event ev s) = entriesMapRef s
      \/ entriesMapRef (apply_event ev s) = mapOfEntries (entries s)).
Proof.
  intros Hq. destruct ev as [| |saved|d|input|d value| |t]; try contradiction;
    cbn [apply_event].
  - split; [reflexivity | now left].
  - destruct (getCurrentWeekEntries_frame s) as (c & n & ->). split; [reflexivity | now left].
  - unfold handleDateChange. destruct d as [d|]; [|split; [reflexivity | now left]].
    destruct (negb (DateFns.isValid d)); [split; [reflexivity | now left]|].
    destruct (DateFns.after d (today s)); (split; [reflexivity | now left]).
  - apply saveEffect_store.
  - destruct (advance_store t s) as [-> ->]. split; [reflexivity | now left].
Qed.

(** The store stays empty until an event writes entries. *)
Lemma empty_store_run (evs : list event) (s : State) :
  Forall quiet evs -> entries s = [] -> entriesMapRef s = ∅ ->
  entries (run evs s) = [] /\ entriesMapRef (run evs s) = ∅.
Proof.
  revert s. induction evs as [|ev evs IH]; intros s Hall He Hm; [split; assumption|].
  apply Forall_cons in Hall as [Hev Hall]. simpl.
  destruct (quiet_event_store ev s Hev) as [He' Hm'].
  apply IH; [exact Hall | now rewrite He' |].
  destruct Hm' as [-> | ->]; [exact Hm | now rewrite He].
Qed.

Lemma coerced_dates (l : list RawEntry) (all : list SolarEntry) :
  Forall2 coerced l all -> map date all = map raw_date l.
Proof.
  induction 1 as [|r e l all [Hd _] _ IH]; [reflexivity|]. simpl. now rewrite Hd, IH.
Qed.

Lemma coerced_bounds (l : list RawEntry) (all : list SolarEntry) :
  Forall2 coerced l all ->
  (forall r, r ∈ l -> inRange (toNumber (raw_production r))) ->
  forall e, e ∈ all -> inRange (production e).
Proof.
  induction 1 as [|r e l all [_ Hp] _ IH]; intros Hb x Hx; [inversion Hx|].
  apply elem_of_cons in Hx as [->|Hx].
  - rewrite Hp. apply Hb. left.
  - apply IH; [|exact Hx]. intros r' Hr'. apply Hb. now right.
Qed.

(** The load of a well-formed batch into the empty store establishes the
    invariant. *)
Lemma store_inv_load (saved : option (list RawEntry)) (s : State) :
  entries s = [] -> entriesMapRef s = ∅ ->
  (forall l, saved = Some l -> wellFormed l) ->
  store_inv (apply_event (Load saved) s).
Proof.
  intros He Hm Hwf. cbn [apply_event]. destruct saved as [l|].
  - destruct (loadEntries_spec l s) as (pre & lc & Hall & _ & Hrun). cbv zeta in *.
    rewrite Hrun. destruct (Hwf l eq_refl) as [Hnd Hb].
    pose proof (coerceAll_coerced l (uuidCalls s)) as Hco.
    set (all := fst (coerceAll l (uuidCalls s))) in *.
    pose proof (coerced_dates _ _ Hco) as Hdates.
    pose proof (coerced_bounds _ _ Hco Hb) as Hbounds.
    unfold store_inv, loaded. simpl. rewrite He, Hm. simpl. fold (mapOfEntries all).
    assert (Hsub : forall e, e ∈ lc -> e ∈ all).
    { intros e Hel. rewrite Hall. apply elem_of_app. now right. }
    split; [|split; [|split]].
    + intros e Hel. apply Hbounds. now apply Hsub.
    + rewrite <- Hdates, Hall, map_app in Hnd. now apply NoDup_app in Hnd as (_ & _ & Hnd).
    + intros e Hel. apply mapOfEntries_is_Some. now apply Hsub.
    + intros k e Hl. apply mapOfEntries_lookup_Some in Hl as [Hel _]. now apply Hbounds.
  - simpl. unfold store_inv. simpl. rewrite He, Hm. split; [|split; [|split]].
    + intros e Hel. inversion Hel.
    + apply NoDup_nil. exact I.
    + intros e Hel. inversion Hel.
    + intros k e Hl. rewrite lookup_empty in Hl. discriminate.
Qed.

(** C1 (as the code has it).  In every session in which the deferred
    load comes before the first upsert and reads nothing or a batch with
    one element per date and productions within [0, 100] (what the
    application itself saves), every entry of the collection, in the
    listing and in the map, has [0 <= production <= 100], and the
    listing has at most one entry per date.  The upserts are the form
    submissions, validated by [formSchema], and the edits, whose
    handlers refuse [NaN] before [updateEntry] checks the bound. *)
Theorem C1_store_invariant (now : Z) (pre post : list event) (saved : option (list RawEntry)) :
  Forall quiet pre ->
  (forall l, saved = Some l -> wellFormed l) ->
  Forall notLoad post ->
  let s := run (pre ++ Load saved :: post) (initial now) in
  (forall e, e ∈ entries s -> inRange (production e))
  /\ NoDup (map date (entries s))
  /\ (forall k e, entriesMapRef s !! k = Some e -> inRange (production e)).
Proof.
  intros Hpre Hwf Hpost. cbv zeta.
  assert (Hinv : store_inv (run (pre ++ Load saved :: post) (initial now))).
  { unfold run. rewrite fold_left_app. cbn [fold_left].
    apply store_inv_run; [exact Hpost|].
    destruct (empty_store_run pre (initial now) Hpre eq_refl eq_refl) as [He Hm].
    now apply store_inv_load. }
  destruct Hinv as (Hb & Hnd & _ & Hvals).
  split; [exact Hb|]. split; [exact Hnd | exact Hvals].
Qed.

(** C1 on a session: mount, first effects and render, load of one stored day, then
    an edit and a form submission, each followed by its commit. *)
Lemma C1_store_invariant_witness :
  let saved := Some [mkRaw (Some "a") "2024-01-08" (JNum (Num.of_Z 5))] in
  let s := run ([Mount; Commit; Render]
                ++ Load saved
                   :: [Commit; Edit "2024-01-09" (Num.of_Z 7); Commit;
                       Submit (JStr "12.5"); Commit])
               (initial 1704888000000) in
  (forall e, e ∈ entries s -> inRange (production e))
  /\ NoDup (map date (entries s))
  /\ (forall k e, entriesMapRef s !! k = Some e -> inRange (production e)).
Proof.
  cbv zeta. apply C1_store_invariant.
  - repeat constructor.
  - intros l [= <-]. split.
    + simpl. apply NoDup_singleton.
    + intros r Hr. apply list_elem_of_singleton in Hr. subst r. split; reflexivity.
  - repeat constructor.
Defined.

Example session_entries :
  entries (run [Mount; Commit; Render;
                Load (Some [mkRaw (Some "a") "2024-01-08" (JNum (Num.of_Z 5))]);
                Commit; Edit "2024-01-09" (Num.of_Z 7); Commit;
                Submit (JStr "12.5"); Commit]
             (initial 1704888000000))
  = [mkEntry "2024-01-08" (Num.of_Z 5) (Loaded "a");
     mkEntry "2024-01-09" (Num.of_Z 7) (Uuid 7);
     mkEntry "2024-01-10" (Fin 12.5) (Uuid 8)].
Proof. vm_compute. reflexivity. Qed.

(** C1 as it was stated fails on the load: a stored production of 500
    enters the collection, and two stored elements of one date are both
    listed. *)
Lemma C1_store_invariant_counterexample :
  let saved := Some [mkRaw (Some "a") "2024-01-08" (JNum (Num.of_Z 500));
                     mkRaw (Some "b") "2024-01-09" (JNum (Num.of_Z 1));
                     mkRaw (Some "c") "2024-01-09" (JNum (Num.of_Z 2))] in
  let s := run [Mount; Commit; Render; Load saved; Commit] (initial 1704888000000) in
  entries s = [mkEntry "2024-01-08" (Num.of_Z 500) (Loaded "a");
               mkEntry "2024-01-09" (Num.of_Z 1) (Loaded "b");
               mkEntry "2024-01-09" (Num.of_Z 2) (Loaded "c")]
  /\ ~ (forall e, e ∈ entries s -> inRange (production e))
  /\ ~ NoDup (map date (entries s)).
Proof.
  cbv zeta.
  assert (He : entries (run [Mount; Commit; Render;
                             Load (Some [mkRaw (Some "a") "2024-01-08" (JNum (Num.of_Z 500));
                                         mkRaw (Some "b") "2024-01-09" (JNum (Num.of_Z 1));
                                         mkRaw (Some "c") "2024-01-09" (JNum (Num.of_Z 2))]);
                             Commit] (initial 1704888000000))
               = [mkEntry "2024-01-08" (Num.of_Z 500) (Loaded "a");
                  mkEntry "2024-01-09" (Num.of_Z 1) (Loaded "b");
                  mkEntry "2024-01-09" (Num.of_Z 2) (Loaded "c")])
    by (vm_compute; reflexivity).
  rewrite He. split; [reflexivity|]. split.
  - intros H. destruct (H (mkEntry "2024-01-08" (Num.of_Z 500) (Loaded "a"))) as [_ H100];
      [left|]. vm_compute in H100. discriminate.
  - simpl. intros H. apply NoDup_cons in H as [_ H]. apply NoDup_cons in H as [H _].
    apply H. left.
Qed.

(** ** The debounced save *)

Lemma onSubmit_sched (v : number) (s : State) :
  sched (onSubmit v s) = sched s /\ (ready s -> ready (onSubmit v s)).
Proof.
  destruct (st_date s) as [dt|] eqn:Hd.
  - destruct (DateFns.after dt (today s)) eqn:Hafter.
    + unfold onSubmit. rewrite Hd, Hafter. split; [reflexivity | tauto].
    + destruct dt as [ms|].
      * destruct (onSubmit_accepted v s ms Hd Hafter)
          as (_ & _ & _ & _ & _ & _ & _ & _ & _ & Hflags & Hs).
        cbv zeta in *. injection Hflags as Hl Hi Hf. unfold sched, ready.
        injection Hs as -> -> -> -> -> ->. rewrite Hl, Hi, Hf. split; [reflexivity | tauto].
      * unfold onSubmit. rewrite Hd, Hafter. simpl. split; [reflexivity|].
        intros (Hl & Hi & Hf). repeat split; assumption.
  - unfold onSubmit. rewrite Hd. split; [reflexivity | tauto].
Qed.

Lemma updateEntry_sched (d : string) (x : number) (s : State) :
  sched (updateEntry d x s) = sched s /\ (ready s -> ready (updateEntry d x s)).
Proof.
  destruct (Num.lt x Num.zero) eqn:H0.
  { rewrite updateEntry_rejected; [split; [reflexivity | tauto] | now left]. }
  destruct (Num.gt x (Num.of_Z 100)) eqn:H100.
  { rewrite updateEntry_rejected; [split; [reflexivity | tauto] | now right]. }
  destruct (updateEntry_accepted d x s H0 H100)
    as (_ & _ & _ & _ & _ & _ & _ & _ & _ & Hflags & Hs).
  cbv zeta in *. injection Hflags as Hl Hi Hf. unfold sched, ready.
  injection Hs as -> -> -> -> -> ->. rewrite Hl, Hi, Hf. split; [reflexivity | tauto].
Qed.

(** An upsert leaves the scheduler as it is and the component ready. *)
Lemma upsert_sched (ev : event) (s : State) :
  upsert ev ->
  sched (apply_event ev s) = sched s /\ (ready s -> ready (apply_event ev s)).
Proof.
  intros Hu. destruct ev as [| |saved|d|input|d value| |t]; try contradiction;
    cbn [apply_event].
  - unfold submit. destruct (formSchema input); [apply onSubmit_sched|].
    split; [reflexivity | tauto].
  - unfold commitEdit. destruct (Num.isNaN value); [split; [reflexivity | tauto]|].
    apply updateEntry_sched.
Qed.

(** The events other than the commit and the passing of time leave the
    scheduler as it is. *)
Lemma event_sched (ev : event) (s : State) :
  ev <> Commit -> (forall t, ev <> Tick t) -> sched (apply_event ev s) = sched s.
Proof.
  intros Hc Ht. destruct ev as [| |saved|d|input|d value| |t]; cbn [apply_event].
  - reflexivity.
  - destruct (getCurrentWeekEntries_frame s) as (c & n & ->). reflexivity.
  - destruct saved as [l|]; [|reflexivity].
    destruct (loadEntries_spec l s) as (pre & lc & _ & _ & ->). reflexivity.
  - unfold handleDateChange. destruct d as [d|]; [|reflexivity].
    destruct (negb (DateFns.isValid d)); [reflexivity|].
    destruct (DateFns.after d (today s)); reflexivity.
  - now apply (upsert_sched (Submit input)).
  - now apply (upsert_sched (Edit d value)).
  - contradiction.
  - exfalso. now apply (Ht t).
Qed.

Lemma timersCleared_one (s : State) : one_timer s -> timersCleared s = [].
Proof.
  unfold timersCleared. intros [Hnil | (tm & Htm & Hr)].
  - rewrite Hnil. now destruct (saveTimeoutRef s).
  - rewrite Htm, Hr. rewrite filter_cons.
    destruct (decide (tid tm <> tid tm)); [contradiction | reflexivity].
Qed.

(** The commit that follows a mutation: the pending write is cancelled
    and one write of the current entries is scheduled, 500 ms from
    now. *)
Lemma saveEffect_schedules (s : State) :
  ready s -> one_timer s ->
  timers (saveEffect s) = [mkTimer (nextTimer s) (clock s + 500) (entries s)]
  /\ saveTimeoutRef (saveEffect s) = Some (nextTimer s)
  /\ nextTimer (saveEffect s) = Pos.succ (nextTimer s)
  /\ writes (saveEffect s) = writes s
  /\ clock (saveEffect s) = clock s
  /\ entries (saveEffect s) = entries s
  /\ ready (saveEffect s).
Proof.
  intros Hr Hone. rewrite (saveEffect_ready s Hr), (timersCleared_one s Hone). simpl.
  repeat split; apply Hr.
Qed.

(** Time passing without reaching the due time of the pending write:
    nothing is written. *)
Lemma advance_early (t : Z) (s : State) (tm : Timer) :
  timers s = [tm] -> clock s <= t < due tm ->
  advance t s = set_clock t s.
Proof.
  intros Htm Ht. unfold advance. cbv zeta. rewrite Htm.
  replace (Z.max (clock s) t) with t by lia.
  rewrite !filter_cons, !filter_nil.
  destruct (decide (due tm <= t)) as [Hd|Hd]; [lia|].
  destruct (decide (~ due tm <= t)) as [_|Hn]; [|contradiction].
  simpl. rewrite <- Htm. destruct s; reflexivity.
Qed.

(** Time passing beyond the due time of the pending write: its callback
    writes the snapshot, once. *)
Lemma advance_fires (t : Z) (s : State) (tm : Timer) :
  timers s = [tm] -> due tm <= t ->
  writes (advance t s) = writes s ++ [snapshot tm]
  /\ timers (advance t s) = []
  /\ saveTimeoutRef (advance t s) = None
  /\ entries (advance t s) = entries s.
Proof.
  intros Htm Ht. unfold advance. cbv zeta. rewrite Htm.
  rewrite !filter_cons, !filter_nil.
  destruct (decide (due tm <= Z.max (clock s) t)) as [Hd|Hd]; [|lia].
  destruct (decide (~ due tm <= Z.max (clock s) t)) as [Hn|_]; [contradiction|].
  simpl. repeat split.
Qed.

Lemma one_timer_sched (s s' : State) : sched s' = sched s -> one_timer s -> one_timer s'.
Proof.
  unfold sched, one_timer. intros [= Hr _ _ Ht _ _]. now rewrite Hr, Ht.
Qed.

Lemma one_timer_event (ev : event) (s : State) : one_timer s -> one_timer (apply_event ev s).
Proof.
  intros Hone.
  destruct ev as [| |saved|d|input|d value| |t];
    try (eapply one_timer_sched;
         [apply event_sched; [discriminate | intros; discriminate] | exact Hone]).
  - cbn [apply_event]. destruct (ready_dec s) as [Hr|Hr].
    + destruct (saveEffect_schedules s Hr Hone) as (Ht & Href & _).
      right. eexists. split; [exact Ht | exact Href].
    + rewrite (saveEffect_not_ready s Hr). destruct (saveCleanup s); unfold one_timer; simpl.
      * rewrite (timersCleared_one s Hone). now left.
      * exact Hone.
  - cbn [apply_event]. destruct Hone as [Hnil | (tm & Htm & Href)].
    + left. unfold advance. cbv zeta. rewrite Hnil. reflexivity.
    + unfold advance. cbv zeta. rewrite Htm.
      rewrite !filter_cons, !filter_nil.
      destruct (decide (due tm <= Z.max (clock s) t)) as [Hd'|Hd'];
        destruct (decide (~ due tm <= Z.max (clock s) t)) as [Hn|Hn];
        try contradiction; simpl.
      * now left.
      * right. exists tm. now split.
Qed.

Lemma one_timer_run (evs : list event) (s : State) : one_timer s -> one_timer (run evs s).
Proof.
  revert s. induction evs as [|ev evs IH]; intros s Hone; [exact Hone|].
  simpl. apply IH. now apply one_timer_event.
Qed.

(** C8.  In every session at most one write is scheduled at any time.
    When the component is ready, a mutation followed by its commit
    schedules a write of the entries 500 ms later; if a second mutation
    is committed within these 500 ms, nothing has been written by then,
    the first timer is cancelled and a new one is set 500 ms after the
    second mutation; once that time has passed, exactly one write has
    been made, with the entries as they are after the second mutation. *)
Theorem C8_debounced_save :
  (forall now evs, (length (timers (run evs (initial now))) <= 1)%nat)
  /\ (forall s ev1 ev2 t2 t3,
        ready s -> one_timer s -> upsert ev1 -> upsert ev2 ->
        clock s <= t2 < clock s + 500 -> t2 + 500 <= t3 ->
        let s1 := run [ev1; Commit] s in
        let s2 := run [Tick t2; ev2; Commit] s1 in
        let s3 := run [Tick t3] s2 in
        timers s1 = [mkTimer (nextTimer s) (clock s + 500) (entries s1)]
        /\ writes (run [Tick t2] s1) = writes s
        /\ timers s2 = [mkTimer (nextTimer s1) (t2 + 500) (entries s2)]
        /\ writes s2 = writes s
        /\ writes s3 = writes s ++ [entries s2]
        /\ timers s3 = []).
Proof.
  split.
  - intros now evs.
    assert (Hone : one_timer (run evs (initial now))) by (apply one_timer_run; now left).
    destruct Hone as [-> | (tm & -> & _)]; simpl; lia.
  - intros s ev1 ev2 t2 t3 Hr Hone Hu1 Hu2 Ht2 Ht3. cbv zeta. unfold run. cbn [fold_left].
    (* the first mutation and its commit *)
    destruct (upsert_sched ev1 s Hu1) as [Hsa Hra]. specialize (Hra Hr).
    set (a := apply_event ev1 s) in *.
    pose proof (one_timer_sched s a Hsa Hone) as Honea.
    injection Hsa as _ _ Hca _ Hna Hwa.
    destruct (saveEffect_schedules a Hra Honea) as (Ht1 & Href1 & Hn1 & Hw1 & Hc1 & He1 & Hr1).
    cbn [apply_event]. set (s1 := saveEffect a) in *.
    (* time passes within the window *)
    assert (Hb : advance t2 s1 = set_clock t2 s1).
    { eapply advance_early; [exact Ht1|]. simpl. lia. }
    rewrite Hb. set (b := set_clock t2 s1) in *.
    assert (Hrb : ready b) by exact Hr1.
    assert (Honeb : one_timer b).
    { right. eexists. split; [exact Ht1 | exact Href1]. }
    (* the second mutation and its commit *)
    destruct (upsert_sched ev2 b Hu2) as [Hsc Hrc]. specialize (Hrc Hrb).
    set (c := apply_event ev2 b) in *.
    pose proof (one_timer_sched b c Hsc Honeb) as Honec.
    injection Hsc as _ _ Hcc _ Hnc Hwc.
    destruct (saveEffect_schedules c Hrc Honec) as (Ht2' & Href2 & Hn2 & Hw2 & Hc2 & He2 & Hr2).
    set (s2 := saveEffect c) in *.
    change (clock b) with t2 in Hcc. change (nextTimer b) with (nextTimer s1) in Hnc.
    change (writes b) with (writes s1) in Hwc.
    (* the write *)
    destruct (advance_fires t3 s2 (mkTimer (nextTimer c) (clock c + 500) (entries c)) Ht2')
      as (Hw3 & Ht3' & _); [simpl; lia|].
    split; [now rewrite Ht1, Hna, Hca, He1|].
    split; [simpl; now rewrite Hw1, Hwa|].
    split; [now rewrite Ht2', Hnc, Hcc, He2|].
    split; [now rewrite Hw2, Hwc, Hw1, Hwa|].
    split; [|exact Ht3'].
    rewrite Hw3. simpl. now rewrite Hw2, Hwc, Hw1, Hwa, He2.
Qed.

(** C8 on two edits 200 ms apart, after the load of an empty batch. *)
Lemma C8_debounced_save_witness :
  let s := run [Mount; Commit; Render; Load (Some []); Commit] (initial 1000) in
  let s1 := run [Edit "1970-01-01" (Num.of_Z 3); Commit] s in
  let s2 := run [Tick 1200; Edit "1970-01-01" (Num.of_Z 4); Commit] s1 in
  let s3 := run [Tick 1700] s2 in
  timers s1 = [mkTimer (nextTimer s) (clock s + 500) (entries s1)]
  /\ writes (run [Tick 1200] s1) = writes s
  /\ timers s2 = [mkTimer (nextTimer s1) (1200 + 500) (entries s2)]
  /\ writes s2 = writes s
  /\ writes s3 = writes s ++ [entries s2]
  /\ timers s3 = [].
Proof.
  cbv zeta.
  apply (proj2 C8_debounced_save
           (run [Mount; Commit; Render; Load (Some []); Commit] (initial 1000))
           (Edit "1970-01-01" (Num.of_Z 3)) (Edit "1970-01-01" (Num.of_Z 4)) 1200 1700).
  - vm_compute. repeat split.
  - right. exists (mkTimer 1 1500 []). split; vm_compute; reflexivity.
  - exact I.
  - exact I.
  - vm_compute. split; [discriminate | reflexivity].
  - lia.
Defined.

Example two_edits_one_write :
  let s := run [Mount; Commit; Render; Load (Some []); Commit;
                Edit "1970-01-01" (Num.of_Z 3); Commit;
                Tick 1200; Edit "1970-01-01" (Num.of_Z 4); Commit;
                Tick 1700] (initial 1000) in
  writes s = [[mkEntry "1970-01-01" (Num.of_Z 4) (Uuid 7)]] /\ timers s = [].
Proof. vm_compute. split; reflexivity. Qed.

(** * Further properties *)

(** ** Sessions *)

(** The callbacks of the save timers write the log and
    [saveTimeoutRef] only. *)
Lemma saveCallbacks_frame (fired : list Timer) (s : State) :
  exists r w,
    fold_left (fun s tm => saveCallback (snapshot tm) s) fired s
    = set_saveTimeoutRef r (set_writes w s).
Proof.
  revert s. induction fired as [|tm fired IH]; intros s.
  - exists (saveTimeoutRef s), (writes s). destruct s; reflexivity.
  - cbn [fold_left]. destruct (IH (saveCallback (snapshot tm) s)) as (r & w & ->).
    exists r, w. reflexivity.
Qed.

Lemma advance_frame (t : Z) (s : State) :
  exists c ts r w,
    advance t s = set_clock c (set_saveTimeoutRef r (set_writes w (set_timers ts s))).
Proof.
  unfold advance. cbv zeta.
  match goal with
  | |- context [fold_left ?f ?l ?a] => destruct (saveCallbacks_frame l a) as (r & w & ->)
  end.
  eexists _, _, _, _. reflexivity.
Qed.



(** ** Upserts: values that are not numbers, and the other dates *)

Lemma fold_add_NaN (es : list SolarEntry) : fold_left addProduction es NaN = NaN.
Proof. induction es as [|e es IH]; [reflexivity|]. simpl. exact IH. Qed.

Lemma fold_add_poisoned (es : list SolarEntry) (a : number) :
  (exists e, e ∈ es /\ production e = NaN) -> fold_left addProduction es a = NaN.
Proof.
  revert a. induction es as [|x es IH]; intros a (e & He & Hp); [inversion He|].
  cbn [fold_left]. apply elem_of_cons in He as [->|He].
  - unfold addProduction at 2. rewrite Hp.
    replace (Num.add a NaN) with NaN by (now destruct a). apply fold_add_NaN.
  - apply IH. eauto.
Qed.

(** X2.  [updateEntry] itself lets [NaN] through, since both of its
    comparisons are false on it: the entry of the date then holds [NaN],
    and the total of any week that contains such an entry is [NaN].  The
    two ways a user reaches [updateEntry] or the listing stop it before:
    the edit handlers return on [NaN] and [formSchema] refuses an input
    that is not a number. *)
Theorem nan_production (d : string) (s : State) :
  (exists e, entriesMapRef (updateEntry d NaN s) !! d = Some e
             /\ production e = NaN /\ e ∈ entries (updateEntry d NaN s))
  /\ commitEdit d NaN s = s
  /\ (forall input, toNumber input = NaN -> submit input s = s)
  /\ (forall es, (exists e, e ∈ es /\ production e = NaN) ->
        weeklyTotal (Tracker_stats.weeklyStats es) = NaN
        /\ weeklyTotal (Worker_stats.calculateStats es) = NaN).
Proof.
  split; [|split; [reflexivity|split]].
  - destruct (updateEntry_accepted d NaN s eq_refl eq_refl) as (He & _ & Hm & _).
    cbv zeta in *. exists (upsertedEntry d NaN s). rewrite Hm, lookup_insert_eq, He.
    split; [reflexivity|]. split; [apply upsertedEntry_fields|].
    unfold upsertedEntries, upsertedEntry.
    destruct (list_find (fun entry => date entry = d) (entries s)) as [[i ex]|] eqn:Hf.
    + apply list_find_Some in Hf as (Hi & _). apply list_elem_of_insert.
      eapply lookup_lt_Some. exact Hi.
    + apply elem_of_app. right. left.
  - intros input Hn. unfold submit, formSchema. rewrite Hn. reflexivity.
  - intros es Hex. rewrite calculateStats_weeklyStats.
    assert (Ht : weeklyTotal (Tracker_stats.weeklyStats es) = NaN).
    { unfold Tracker_stats.weeklyStats. destruct es as [|e0 es0].
      - destruct Hex as (e & He & _). inversion He.
      - change (length (e0 :: es0) =? 0)%nat with false. cbv iota zeta. cbn [weeklyTotal].
        destruct (fold_step_fields (e0 :: es0) Tracker_stats.init) as (Hf & _).
        cbv zeta in Hf. rewrite Hf. now apply fold_add_poisoned. }
    split; exact Ht.
Qed.

Lemma filter_insert_other {A} (P : A -> Prop) `{forall x, Decision (P x)}
    (l : list A) (i : nat) (x y : A) :
  l !! i = Some x -> ~ P x -> ~ P y -> filter P (<[i := y]> l) = filter P l.
Proof.
  intros Hi Hx Hy. rewrite insert_take_drop by (eapply lookup_lt_Some; exact Hi).
  rewrite <- (take_drop_middle l i x Hi) at 3.
  rewrite !filter_app, !filter_cons.
  destruct (decide (P y)); [contradiction|]. destruct (decide (P x)); [contradiction|].
  reflexivity.
Qed.

(** X3.  An upsert of the date [d] leaves the other dates alone: the
    map answers as before for every other date, and the entries of the
    other dates stay in the listing, in their order.  For [updateEntry]
    this holds in every state; for the form it is stated on the listing,
    from which [updateEntriesState] rebuilds the map. *)
Theorem upsert_other_dates (s : State) :
  (forall d x d', d' <> d ->
     entriesMapRef (updateEntry d x s) !! d' = entriesMapRef s !! d'
     /\ dated d' (entries (updateEntry d x s)) = dated d' (entries s))
  /\ (forall v ms d',
        st_date s = Some (ValidDate ms) ->
        DateFns.after (ValidDate ms) (today s) = false ->
        d' <> DateFns.formatDay (DateFns.dayNumber ms) ->
        dated d' (entries (onSubmit v s)) = dated d' (entries s)
        /\ entriesMapRef (onSubmit v s) !! d' = last (dated d' (entries s))).
Proof.
  split.
  - intros d x d' Hne.
    destruct (Num.lt x Num.zero) eqn:H0.
    { rewrite updateEntry_rejected by (now left). split; reflexivity. }
    destruct (Num.gt x (Num.of_Z 100)) eqn:H100.
    { rewrite updateEntry_rejected by (now right). split; reflexivity. }
    destruct (updateEntry_accepted d x s H0 H100) as (He & _ & Hm & _). cbv zeta in *.
    rewrite He, Hm. split; [apply lookup_insert_ne; congruence|].
    unfold upsertedEntries, dated.
    destruct (list_find (fun entry => date entry = d) (entries s)) as [[i ex]|] eqn:Hf.
    + apply list_find_Some in Hf as (Hi & Hd & _).
      eapply filter_insert_other; [exact Hi | |]; simpl; congruence.
    + rewrite filter_app, filter_cons, filter_nil. simpl.
      destruct (decide (d = d')); [congruence|]. apply app_nil_r.
  - intros v ms d' Hd Hafter Hne.
    destruct (onSubmit_accepted v s ms Hd Hafter) as (He & _ & Hm & _). cbv zeta in *.
    assert (Hdated : dated d' (submittedEntries (DateFns.formatDay (DateFns.dayNumber ms))
                                 (Num.or_else v Num.zero) s)
                     = dated d' (entries s)).
    { unfold submittedEntries.
      destruct (entriesMapRef s !! DateFns.formatDay (DateFns.dayNumber ms)).
      - unfold dated. induction (entries s) as [|e l IH]; [reflexivity|].
        simpl. rewrite !filter_cons.
        destruct (decide (date e = DateFns.formatDay (DateFns.dayNumber ms))) as [Heq|Heq]; simpl.
        + destruct (decide (date e = d')); [congruence | exact IH].
        + destruct (decide (date e = d')); [now rewrite IH | exact IH].
      - unfold dated. rewrite filter_app, filter_cons, filter_nil. simpl.
        destruct (decide (DateFns.formatDay (DateFns.dayNumber ms) = d')); [congruence|].
        apply app_nil_r. }
    rewrite He, Hm. split; [exact Hdated|].
    unfold mapOfEntries. rewrite setAll_lookup, lookup_empty, Hdated.
    now destruct (last (dated d' (entries s))).
Qed.

Lemma upsert_other_dates_witness :
  let s := run [Mount; Commit; Render;
                Load (Some [mkRaw (Some "a") "2024-01-08" (JNum (Num.of_Z 5))]); Commit]
             (initial 1704888000000) in
  dated "2024-01-08" (entries (onSubmit (Num.of_Z 7) s)) = dated "2024-01-08" (entries s)
  /\ entriesMapRef (onSubmit (Num.of_Z 7) s) !! "2024-01-08"%string
     = last (dated "2024-01-08" (entries s)).
Proof.
  cbv zeta.
  apply (proj2 (upsert_other_dates _) (Num.of_Z 7) 1704888000000 "2024-01-08"%string).
  - vm_compute. reflexivity.
  - vm_compute. reflexivity.
  - vm_compute. discriminate.
Defined.

(** ** The anchor and the cache slot *)

Lemma today_event (ev : event) (s : State) : today (apply_event ev s) = today s.
Proof.
  destruct ev as [| |saved|d|input|d value| |t]; cbn [apply_event].
  - reflexivity.
  - destruct (getCurrentWeekEntries_frame s) as (c & n & ->). reflexivity.
  - destruct saved as [l|]; [|reflexivity].
    destruct (loadEntries_spec l s) as (pre & lc & _ & _ & ->). reflexivity.
  - unfold handleDateChange. destruct d as [[ms|]|]; try reflexivity.
    cbn [DateFns.isValid negb]. destruct (DateFns.after (ValidDate ms) (today s)); reflexivity.
  - unfold submit. destruct (formSchema input) as [v|]; [|reflexivity].
    destruct (st_date s) as [dt|] eqn:Hd; [|unfold onSubmit; now rewrite Hd].
    destruct (DateFns.after dt (today s)) eqn:Hafter; [unfold onSubmit; now rewrite Hd, Hafter|].
    destruct dt as [ms|]; [|unfold onSubmit; now rewrite Hd, Hafter].
    now destruct (onSubmit_accepted v s ms Hd Hafter) as (_ & _ & _ & _ & _ & _ & _ & Ht & _).
  - unfold commitEdit. destruct (Num.isNaN value); [reflexivity|].
    destruct (Num.lt value Num.zero) eqn:H0; [now rewrite updateEntry_rejected by (now left)|].
    destruct (Num.gt value (Num.of_Z 100)) eqn:H100;
      [now rewrite updateEntry_rejected by (now right)|].
    now destruct (updateEntry_accepted d value s H0 H100) as (_ & _ & _ & _ & _ & _ & _ & Ht & _).
  - destruct (ready_dec s) as [Hrdy|Hrdy].
    + now rewrite (saveEffect_ready s Hrdy).
    + rewrite (saveEffect_not_ready s Hrdy). now destruct (saveCleanup s).
  - destruct (advance_frame t s) as (c & ts & r & w & ->). reflexivity.
Qed.

Lemma today_run (evs : list event) (s : State) : today (run evs s) = today s.
Proof.
  revert s. induction evs as [|ev evs IH]; intros s; [reflexivity|].
  simpl. rewrite IH. apply today_event.
Qed.

(** X4.  [today] is the time of the first render and never changes; the
    mount effect sets the anchor to the time at which it runs.  When the
    mount runs later than the first render, even by a millisecond, the
    anchor is after [today]: every submission of the form is then
    refused as a future date and leaves the state unchanged, until
    another date is chosen. *)
Theorem mount_after_render_refuses_submit (now : Z) (evs : list event) :
  let s := run (evs ++ [Mount]) (initial now) in
  now < clock s ->
  st_date s = Some (ValidDate (clock s))
  /\ today s = ValidDate now
  /\ forall input, submit input s = s.
Proof.
  cbv zeta. unfold run. rewrite fold_left_app. cbn [fold_left apply_event].
  fold (run evs (initial now)). set (s0 := run evs (initial now)).
  assert (Ht : today s0 = ValidDate now) by (unfold s0; now rewrite today_run).
  intros Hlate. change (clock (mountDate (clock s0) s0)) with (clock s0) in *.
  split; [reflexivity|]. split; [exact Ht|].
  intros input. unfold submit. destruct (formSchema input) as [v|]; [|reflexivity].
  unfold onSubmit. simpl. rewrite Ht. simpl.
  destruct (now <? clock s0) eqn:Hlt; [reflexivity|]. apply Z.ltb_ge in Hlt. lia.
Qed.

Lemma mount_after_render_refuses_submit_witness :
  let s := run ([Tick 1704888000003] ++ [Mount]) (initial 1704888000000) in
  st_date s = Some (ValidDate (clock s))
  /\ today s = ValidDate 1704888000000
  /\ forall input, submit input s = s.
Proof.
  cbv zeta. apply (mount_after_render_refuses_submit 1704888000000 [Tick 1704888000003]).
  vm_compute. reflexivity.
Defined.

(** X5.  The cache slot is keyed by the start of the week.  After a
    materialization for an anchor, choosing any date of the same week
    and materializing again returns the same array without
    recomputation, whether the calendar accepted the date or refused it
    as a future one. *)
Theorem same_week_is_a_hit (s : State) (ms ms' : Z) :
  st_date s = Some (ValidDate ms) ->
  weekStartDay ms' = weekStartDay ms ->
  let s1 := snd (getCurrentWeekEntries s) in
  let s2 := handleDateChange (Some (ValidDate ms')) s1 in
  getCurrentWeekEntries s2 = (fst (getCurrentWeekEntries s), s2).
Proof.
  intros Hd Hweek. cbv zeta.
  assert (Hc : weeklyEntriesCache (snd (getCurrentWeekEntries s))
               = Some (DateFns.formatDay (weekStartDay ms), fst (getCurrentWeekEntries s))
               /\ st_date (snd (getCurrentWeekEntries s)) = Some (ValidDate ms)
               /\ today (snd (getCurrentWeekEntries s)) = today s).
  { destruct (weeklyEntriesCache s) as [[cd ce]|] eqn:Hcache.
    - destruct (decide (cd = DateFns.formatDay (weekStartDay ms))) as [->|Hne].
      + rewrite (getCurrentWeekEntries_hit s ms ce Hd Hcache). simpl. now split.
      + destruct (getCurrentWeekEntries_miss s ms Hd) as (es & n & Hg & _).
        { intros es Heq. rewrite Hcache in Heq. congruence. }
        rewrite Hg. simpl. now split.
    - destruct (getCurrentWeekEntries_miss s ms Hd) as (es & n & Hg & _).
      { intros es Heq. rewrite Hcache in Heq. discriminate. }
      rewrite Hg. simpl. now split. }
  destruct Hc as (Hc & Hd1 & Ht1).
  set (s1 := snd (getCurrentWeekEntries s)) in *.
  unfold handleDateChange. cbn [DateFns.isValid negb].
  destruct (DateFns.after (ValidDate ms') (today s1)).
  - now apply (getCurrentWeekEntries_hit s1 ms).
  - apply (getCurrentWeekEntries_hit _ ms'); [reflexivity|]. simpl. now rewrite Hweek.
Qed.

Lemma same_week_is_a_hit_witness :
  let s := run [Mount] (initial 1704888000000) in
  let s1 := snd (getCurrentWeekEntries s) in
  let s2 := handleDateChange (Some (ValidDate 1704672000000)) s1 in
  getCurrentWeekEntries s2 = (fst (getCurrentWeekEntries s), s2).
Proof.
  cbv zeta.
  apply (same_week_is_a_hit (run [Mount] (initial 1704888000000)) 1704888000000 1704672000000).
  - reflexivity.
  - vm_compute. reflexivity.
Defined.

(** ** Bounds on the statistics and on the chart *)



(** The fields of [weeklyStats] as folds over the entries. *)
Lemma weeklyStats_fields (es : list SolarEntry) :
  let st := Tracker_stats.weeklyStats es in
  weeklyTotal st = fold_left addProduction es Num.zero
  /\ dailyAverage st
     = (if (0 <? countProducing es)%nat
        then Num.div (weeklyTotal st) (Num.of_nat (countProducing es))
        else Num.zero)
  /\ (maxProduction st, maxProductionDay st)
     = fold_left Worker_stats.maxStep es (Num.zero, None).
Proof.
  cbv zeta. destruct es as [|e0 es0]; [repeat split|].
  set (es := e0 :: es0).
  destruct (fold_step_fields es Tracker_stats.init) as (Ht & Hd & Hm). cbv zeta in *.
  unfold Tracker_stats.weeklyStats. change (length es =? 0)%nat with false. cbv iota zeta.
  cbn [weeklyTotal dailyAverage maxProduction maxProductionDay].
  rewrite Hd, Ht, Hm. repeat split.
Qed.



Lemma chartShown_producing (es : list SolarEntry) :
  chartShown es = true <-> exists e, e ∈ es /\ Num.gt (production e) Num.zero = true.
Proof.
  unfold chartShown. rewrite existsb_exists. split; intros (e & He & Hp); exists e;
    (split; [now apply list_elem_of_In | exact Hp]).
Qed.

Lemma chartShown_none (es : list SolarEntry) :
  chartShown es = false -> forall e, e ∈ es -> Num.gt (production e) Num.zero = false.
Proof.
  intros Hs e He. destruct (Num.gt (production e) Num.zero) eqn:Hp; [|reflexivity].
  assert (H : chartShown es = true) by (apply chartShown_producing; eauto). congruence.
Qed.




(** ** [Math.max] and the day cards *)

Lemma max_NaN_l (x : number) : Num.max NaN x = NaN.
Proof. reflexivity. Qed.




(** On numbers, [Math.max] returns one of its arguments, which none
    exceeds. *)
Lemma Math_max_fin (x0 : number) (xs : list number) :
  (forall x, x ∈ x0 :: xs -> Num.isNaN x = false) ->
  exists m, Math_max x0 xs = Fin m /\ Fin m ∈ x0 :: xs
            /\ forall q, Fin q ∈ x0 :: xs -> (q <= m)%Q.
Proof.
  revert x0. induction xs as [|x xs IH]; intros x0 Hfin.
  - destruct x0 as [q0|]; [|specialize (Hfin NaN ltac:(left)); discriminate].
    exists q0. split; [reflexivity|]. split; [left|].
    intros q Hq. apply list_elem_of_singleton in Hq. injection Hq as ->. lra.
  - change (Math_max x0 (x :: xs)) with (Math_max (Num.max x0 x) xs).
    destruct x0 as [a|]; [|specialize (Hfin NaN ltac:(left)); discriminate].
    destruct x as [b|]; [|specialize (Hfin NaN ltac:(right; left)); discriminate].
    assert (Hmax : exists c, Num.max (Fin a) (Fin b) = Fin c
                             /\ (Fin c = Fin a \/ Fin c = Fin b) /\ (a <= c)%Q /\ (b <= c)%Q).
    { unfold Num.max. destruct (Qle_bool a b) eqn:Hab; qprop.
      - exists b. repeat split; [now right | lra | lra].
      - exists a. repeat split; [now left | lra | lra]. }
    destruct Hmax as (c & Hc & Hwhich & Hac & Hbc). rewrite Hc.
    destruct (IH (Fin c)) as (m & Hm & Hin & Hle).
    { intros y Hy. apply elem_of_cons in Hy as [->|Hy]; [reflexivity|].
      apply Hfin. right. now right. }
    exists m. split; [exact Hm|].
    assert (Hcm : (c <= m)%Q) by (apply Hle; left).
    split.
    + apply elem_of_cons in Hin as [Hin|Hin].
      * rewrite Hin. destruct Hwhich as [-> | ->]; [left | right; left].
      * right. now right.
    + intros q Hq. apply elem_of_cons in Hq as [Hq|Hq]; [injection Hq as ->; lra|].
      apply elem_of_cons in Hq as [Hq|Hq]; [injection Hq as ->; lra|].
      apply Hle. now right.
Qed.

Lemma production_elem (es : list SolarEntry) (e : SolarEntry) :
  e ∈ es -> production e ∈ map production es.
Proof. intros He. rewrite map_fmap. now apply list_elem_of_fmap_2. Qed.



(** X9.  The two computations of the chart maximum.  On a non-empty
    sequence of non-negative numbers the worker's [processChartData] and
    the component's [maxValue] return the same value.  On a non-empty
    sequence of negative numbers they part: the worker returns the
    (negative) greatest production, the component the floor 10. *)
Theorem chart_maximum_worker_and_component (e0 : SolarEntry) (es0 : list SolarEntry) :
  let es := e0 :: es0 in
  ((forall e, e ∈ es -> exists q, production e = Fin q /\ (0 <= q)%Q) ->
   Worker_chart.maxValue (Worker_chart.processChartData es) ≃ SolarChart.maxValue es)
  /\ ((forall e, e ∈ es -> exists q, production e = Fin q /\ (q < 0)%Q) ->
      SolarChart.maxValue es = Num.of_Z 10
      /\ exists m, Worker_chart.maxValue (Worker_chart.processChartData es) = Fin m
                   /\ (m < 0)%Q).
Proof.
  cbv zeta. set (es := e0 :: es0).
  assert (Hw : Worker_chart.maxValue (Worker_chart.processChartData es)
               = Num.or_else (Math_max (production e0) (map production es0)) (Num.of_Z 10))
    by reflexivity.
  assert (Hmm : forall (P : Q -> Prop),
             (forall e, e ∈ es -> exists q, production e = Fin q /\ P q) ->
             exists m, Math_max (production e0) (map production es0) = Fin m
                       /\ (exists e, e ∈ es /\ production e = Fin m /\ P m)
                       /\ forall e q, e ∈ es -> production e = Fin q -> (q <= m)%Q).
  { intros P HP.
    destruct (Math_max_fin (production e0) (map production es0)) as (m & Hm & Hin & Hle).
    { intros x Hx. change (production e0 :: map production es0) with (map production es) in Hx.
      rewrite map_fmap in Hx. apply list_elem_of_fmap in Hx as (y & -> & Hy).
      destruct (HP y Hy) as (q & -> & _). reflexivity. }
    exists m. split; [exact Hm|]. split.
    - change (production e0 :: map production es0) with (map production es) in Hin.
      rewrite map_fmap in Hin. apply list_elem_of_fmap in Hin as (y & Hy & Hyin).
      exists y. split; [exact Hyin|]. split; [now symmetry|].
      destruct (HP y Hyin) as (q & Hq & Hpq). rewrite Hq in Hy. injection Hy as ->. exact Hpq.
    - intros e q He Hq. apply Hle. rewrite <- Hq. now apply (production_elem es). }
  split.
  - intros Hnn. destruct (Hmm _ Hnn) as (m & Hm & (em & Hem & Hpm & Hm0) & Hle).
    rewrite Hw, Hm.
    destruct (chartShown es) eqn:Hs.
    + apply chartShown_producing in Hs.
      destruct (maxValue_producing es Hs) as (e & He & Hval & Hall).
      destruct Hs as (ep & Hep & Hpos).
      destruct (Hnn e He) as (q & Hq & _). rewrite Hval, Hq.
      assert (Hmq : (m <= q)%Q).
      { specialize (Hall em Hem). rewrite Hval, Hq, Hpm in Hall.
        unfold Num.gt, Num.lt in Hall. qprop. exact Hall. }
      assert (Hqm : (q <= m)%Q) by (eapply Hle; eauto).
      assert (Hqpos : (0 < q)%Q).
      { specialize (Hall ep Hep). destruct (Hnn ep Hep) as (qp & Hqp & _).
        rewrite Hval, Hq, Hqp in Hall. rewrite Hqp in Hpos.
        unfold Num.gt, Num.lt, Num.zero in *. qprop. lra. }
      unfold Num.or_else, Num.truthy.
      destruct (Qeq_bool m 0) eqn:Hz; [qprop; lra|]. simpl. lra.
    + rewrite (maxValue_no_producing es (chartShown_none es Hs)).
      pose proof (chartShown_none es Hs em Hem) as Hno. rewrite Hpm in Hno.
      unfold Num.gt, Num.lt, Num.zero in Hno. qprop.
      unfold Num.or_else, Num.truthy.
      destruct (Qeq_bool m 0) eqn:Hz; [apply eqv_refl | qprop; lra].
  - intros Hneg. split.
    + apply maxValue_no_producing. intros e He. destruct (Hneg e He) as (q & -> & Hq).
      unfold Num.gt, Num.lt, Num.zero. qprop. lra.
    + destruct (Hmm _ Hneg) as (m & Hm & (em & _ & _ & Hm0) & _).
      rewrite Hw, Hm.
      exists m. split; [|exact Hm0].
      unfold Num.or_else, Num.truthy. destruct (Qeq_bool m 0) eqn:Hz; [qprop; lra | reflexivity].
Qed.

Lemma chart_maximum_worker_and_component_witness :
  let es := [mkEntry "2024-01-08" (Num.of_Z 2) (Uuid 0);
             mkEntry "2024-01-09" (Num.of_Z 50) (Uuid 1)] in
  Worker_chart.maxValue (Worker_chart.processChartData es) ≃ SolarChart.maxValue es.
Proof.
  cbv zeta.
  apply (chart_maximum_worker_and_component
           (mkEntry "2024-01-08" (Num.of_Z 2) (Uuid 0))
           [mkEntry "2024-01-09" (Num.of_Z 50) (Uuid 1)]).
  intros e He. repeat (apply elem_of_cons in He as [->|He]; [eexists; split; [reflexivity|]|]).
  - unfold inject_Z. lra.
  - unfold inject_Z. lra.
  - inversion He.
Defined.

(** ** A stored batch of more than one chunk *)

(** [processChunk] with the place of the last chunk: it starts at the
    last multiple of 50 below the end of the batch, counted from
    [startIndex]. *)
Lemma processChunk_last (fuel : nat) (saved : list RawEntry) (startIndex : nat) (s : State) :
  (startIndex <= length saved)%nat ->
  (1 <= fuel)%nat ->
  (length saved - startIndex <= fuel * 50)%nat ->
  let all := fst (coerceAll (drop startIndex saved) (uuidCalls s)) in
  let n := snd (coerceAll (drop startIndex saved) (uuidCalls s)) in
  exists pre lastChunk,
    all = pre ++ lastChunk
    /\ length pre = (50 * ((length saved - startIndex - 1) / 50))%nat
    /\ processChunk fuel saved startIndex 50 s = Some (loaded s all lastChunk n).
Proof.
  revert startIndex s. induction fuel as [|fuel IH]; intros startIndex s Hstart Hfuel Hlen;
    [lia|]. cbv zeta. cbn [processChunk].
  destruct (Nat.min (startIndex + 50) (length saved) <? length saved)%nat eqn:Hmore.
  - apply Nat.ltb_lt in Hmore.
    assert (Hend : Nat.min (startIndex + 50) (length saved) = (startIndex + 50)%nat) by lia.
    rewrite Hend. replace (startIndex + 50 - startIndex)%nat with 50%nat by lia.
    assert (Hsplit : drop startIndex saved
                     = take 50 (drop startIndex saved) ++ drop (startIndex + 50) saved).
    { rewrite <- (take_drop 50 (drop startIndex saved)) at 1. now rewrite drop_drop. }
    assert (Hcall : coerceAll (drop startIndex saved) (uuidCalls s)
                    = (fst (coerceAll (take 50 (drop startIndex saved)) (uuidCalls s))
                       ++ fst (coerceAll (drop (startIndex + 50) saved)
                                 (snd (coerceAll (take 50 (drop startIndex saved))
                                         (uuidCalls s)))),
                       snd (coerceAll (drop (startIndex + 50) saved)
                              (snd (coerceAll (take 50 (drop startIndex saved))
                                      (uuidCalls s)))))).
    { rewrite Hsplit at 1. apply coerceAll_app. }
    rewrite Hcall. clear Hcall Hsplit.
    assert (Hpclen : length (fst (coerceAll (take 50 (drop startIndex saved)) (uuidCalls s)))
                     = 50%nat).
    { rewrite <- (Forall2_length _ _ _ (coerceAll_coerced _ _)).
      rewrite length_take, length_drop. lia. }
    destruct (coerceAll (take 50 (drop startIndex saved)) (uuidCalls s)) as [pc n1] eqn:Hpc.
    cbn [fst snd] in *.
    set (s1 := set_entriesMapRef (setAll (entriesMapRef (set_uuidCalls n1 s)) pc)
                 (set_uuidCalls n1 s)).
    destruct (IH (startIndex + 50)%nat s1) as (pre & lastChunk & Hall & Hpre & Hrun);
      [lia | lia | lia |].
    cbv zeta in Hall, Hrun. change (uuidCalls s1) with n1 in Hall, Hrun.
    exists (pc ++ pre), lastChunk. split; [|split].
    + rewrite Hall. now rewrite app_assoc.
    + rewrite length_app, Hpclen, Hpre.
      assert (Hdiv : ((length saved - startIndex - 1) / 50
                      = S ((length saved - (startIndex + 50) - 1) / 50))%nat).
      { replace (length saved - startIndex - 1)%nat
          with (1 * 50 + (length saved - (startIndex + 50) - 1))%nat by lia.
        rewrite Nat.div_add_l by lia. lia. }
      rewrite Hdiv. lia.
    + rewrite Hrun. f_equal. unfold loaded, s1. simpl. now rewrite setAll_app.
  - apply Nat.ltb_ge in Hmore.
    assert (Hend : Nat.min (startIndex + 50) (length saved) = length saved) by lia.
    rewrite Hend.
    assert (Hchunk : take (length saved - startIndex) (drop startIndex saved)
                     = drop startIndex saved).
    { apply take_ge. rewrite length_drop. lia. }
    rewrite Hchunk.
    destruct (coerceAll (drop startIndex saved) (uuidCalls s)) as [pc n1]. cbn [fst snd].
    exists [], pc. split; [reflexivity|]. split; [|reflexivity].
    rewrite Nat.div_small by lia. reflexivity.
Qed.

(** X10.  A stored batch of more than 50 elements is loaded in chunks,
    and only the last chunk reaches the listing: after the load the
    listing has grown by the coerced elements from index
    [50 * ((length saved - 1) / 50)] on, while the lookup map holds a
    date of every stored element.  The save effect that follows rebuilds
    the map from the listing, and 500 ms later the listing, without the
    earlier chunks, is what is written back to storage. *)
Theorem long_load_lists_last_chunk (saved : list RawEntry) (s : State) :
  (50 < length saved)%nat ->
  initialRenderRef s = false -> timers s = [] ->
  let k := (50 * ((length saved - 1) / 50))%nat in
  let s1 := apply_event (Load (Some saved)) s in
  let s2 := run [Commit; Tick (clock s + 500)] s1 in
  (exists lastChunk, entries s1 = entries s ++ lastChunk
                     /\ Forall2 coerced (drop k saved) lastChunk)
  /\ (length (entries s1) < length (entries s) + length saved)%nat
  /\ (forall r, r ∈ saved -> is_Some (entriesMapRef s1 !! raw_date r))
  /\ entriesMapRef s2 = mapOfEntries (entries s1)
  /\ entries s2 = entries s1
  /\ writes s2 = writes s ++ [entries s1].
Proof.
  intros Hlong Hfirst Htimers. cbv zeta. cbn [apply_event]. unfold loadEntries.
  destruct (processChunk_last (S (length saved)) saved 0 s) as (pre & lc & Hall & Hpre & Hrun);
    [lia | lia | lia |].
  cbv zeta in Hall, Hrun. rewrite drop_0 in Hall, Hrun. rewrite Nat.sub_0_r in Hpre.
  rewrite Hrun. clear Hrun.
  pose proof (coerceAll_coerced saved (uuidCalls s)) as Hco.
  set (all := fst (coerceAll saved (uuidCalls s))) in *.
  set (n := snd (coerceAll saved (uuidCalls s))) in *.
  set (s1 := loaded s all lc n).
  assert (Hentries : entries s1 = entries s ++ lc) by reflexivity.
  assert (Hlc : Forall2 coerced (drop (50 * ((length saved - 1) / 50)) saved) lc).
  { rewrite <- Hpre. apply (Forall2_drop _ _ _ (length pre)) in Hco.
    rewrite Hall, drop_app_length in Hco. exact Hco. }
  assert (Hlen : (length (entries s1) < length (entries s) + length saved)%nat).
  { rewrite Hentries, length_app. rewrite <- (Forall2_length _ _ _ Hlc), length_drop.
    assert (1 <= (length saved - 1) / 50)%nat by (apply Nat.div_le_lower_bound; lia). lia. }
  assert (Hready : ready s1) by (repeat split; exact Hfirst).
  assert (Hone : one_timer s1) by (left; exact Htimers).
  split; [exists lc; split; assumption|]. split; [exact Hlen|]. split.
  - intros r Hr. change (entriesMapRef s1) with (setAll (entriesMapRef s) all).
    rewrite setAll_lookup.
    apply list_elem_of_lookup_1 in Hr as (i & Hi).
    destruct (Forall2_lookup_l _ _ _ _ _ Hco Hi) as (e & He & Hdate & _).
    assert (Hin : e ∈ dated (raw_date r) all).
    { apply dated_elem. split; [eapply list_elem_of_lookup_2; exact He | exact Hdate]. }
    destruct (last (dated (raw_date r) all)) eqn:Hlast; [eexists; reflexivity|].
    apply last_None in Hlast. rewrite Hlast in Hin. inversion Hin.
  - unfold run. cbn [fold_left apply_event].
    destruct (saveEffect_schedules s1 Hready Hone) as (Ht & _ & _ & Hw & Hc & He & _).
    destruct (advance_fires (clock s + 500) (saveEffect s1) _ Ht) as (Hw2 & _ & _ & He2).
    { cbn [due]. change (clock s1) with (clock s). lia. }
    destruct (advance_store (clock s + 500) (saveEffect s1)) as (_ & Hm2).
    rewrite Hm2, He2, Hw2, He, Hw. cbn [snapshot].
    split; [|split; reflexivity].
    rewrite (saveEffect_ready s1 Hready). reflexivity.
Qed.

Lemma long_load_lists_last_chunk_witness :
  let saved := map (fun i => mkRaw None "2024-01-08" (JNum (Num.of_nat i))) (seq 0 51) in
  let s := saveEffect (initial 0) in
  let s1 := apply_event (Load (Some saved)) s in
  let s2 := run [Commit; Tick (clock s + 500)] s1 in
  (exists lastChunk, entries s1 = entries s ++ lastChunk
                     /\ Forall2 coerced (drop (50 * ((length saved - 1) / 50)) saved) lastChunk)
  /\ (length (entries s1) < length (entries s) + length saved)%nat
  /\ (forall r, r ∈ saved -> is_Some (entriesMapRef s1 !! raw_date r))
  /\ entriesMapRef s2 = mapOfEntries (entries s1)
  /\ entries s2 = entries s1
  /\ writes s2 = writes s ++ [entries s1].
Proof.
  cbv zeta. apply long_load_lists_last_chunk.
  - vm_compute. lia.
  - reflexivity.
  - reflexivity.
Defined.

(** ** Editing a day card *)







(** X13.  The three ways of selecting a date (the calendar, the typed
    date and the editor of a day card) keep [today] and never select a
    date after it.  The calendar and the typed date never select an
    invalid date either; the editor of a card whose date does not parse
    does. *)
Theorem selected_date_never_future (newDate : string -> JSDate) (toString : number -> string)
    (s : State) :
  (forall d, st_date s = Some d -> DateFns.after d (today s) = false) ->
  let kept := fun s' : State =>
    today s' = today s
    /\ forall d, st_date s' = Some d -> DateFns.after d (today s') = false in
  let valid := fun s' : State =>
    st_date s' = None \/ exists ms, st_date s' = Some (ValidDate ms) in
  (forall nd, kept (handleDateChange nd s) /\ (valid s -> valid (handleDateChange nd s)))
  /\ (forall text, kept (DayEdit.handleManualDateChange newDate text s)
                   /\ (valid s -> valid (DayEdit.handleManualDateChange newDate text s)))
  /\ (forall entry e,
        kept (snd (DayEdit.handleEditDay newDate toString entry (e, s)))
        /\ (newDate (date entry) = InvalidDate ->
            st_date (snd (DayEdit.handleEditDay newDate toString entry (e, s)))
            = Some InvalidDate)).
Proof.
  intros Hs. cbv zeta.
  assert (Hset : forall d, DateFns.after d (today s) = false ->
             today (set_st_date (Some d) s) = today s
             /\ forall d', st_date (set_st_date (Some d) s) = Some d' ->
                           DateFns.after d' (today (set_st_date (Some d) s)) = false).
  { intros d Hd. split; [reflexivity|]. intros d' [= <-]. exact Hd. }
  assert (Hpick : forall d,
             let s' := if negb (DateFns.isValid d) then s
                       else if DateFns.after d (today s) then s
                       else set_st_date (Some d) s in
             (today s' = today s
              /\ forall d', st_date s' = Some d' -> DateFns.after d' (today s') = false)
             /\ ((st_date s = None \/ exists ms, st_date s = Some (ValidDate ms)) ->
                 st_date s' = None \/ exists ms, st_date s' = Some (ValidDate ms))).
  { intros d. cbv zeta. destruct d as [ms|]; cbn [DateFns.isValid negb].
    - destruct (DateFns.after (ValidDate ms) (today s)) eqn:Ha.
      + split; [split; [reflexivity | exact Hs] | tauto].
      + split; [now apply Hset|]. intros _. right. exists ms. reflexivity.
    - split; [split; [reflexivity | exact Hs] | tauto]. }
  split; [|split].
  - intros [d|]; cbn [handleDateChange]; [apply Hpick|].
    split; [split; [reflexivity | exact Hs] | tauto].
  - intros text. unfold DayEdit.handleManualDateChange.
    destruct text as [|c rest]; [split; [split; [reflexivity | exact Hs] | tauto]|].
    apply Hpick.
  - intros entry e. unfold DayEdit.handleEditDay.
    destruct (DateFns.after (newDate (date entry)) (today s)) eqn:Ha; cbn [snd].
    + split; [split; [reflexivity | exact Hs]|].
      intros Hinv. rewrite Hinv in Ha. discriminate.
    + split; [now apply Hset|]. intros ->. reflexivity.
Qed.

Lemma selected_date_never_future_witness :
  let s := mountDate 86400000 (initial 86400000) in
  let s' := handleDateChange (Some (ValidDate 0)) s in
  (today s' = today s
   /\ forall d, st_date s' = Some d -> DateFns.after d (today s') = false)
  /\ ((st_date s = None \/ exists ms, st_date s = Some (ValidDate ms)) ->
      st_date s' = None \/ exists ms, st_date s' = Some (ValidDate ms)).
Proof.
  cbv zeta.
  apply (proj1 (selected_date_never_future (fun _ => InvalidDate) (fun _ => EmptyString)
                  (mountDate 86400000 (initial 86400000))
                  ltac:(intros d [= <-]; reflexivity))
           (Some (ValidDate 0))).
Defined.

(** ** [safeStorage] *)

Arguments SafeStorage.get {V} parse key st.
Arguments SafeStorage.set {V} stringify accepts key value st.
Arguments SafeStorage.clear {V} key st.
Arguments SafeStorage.set_cache {V} c st.
Arguments SafeStorage.set_items {V} i st.
Arguments SafeStorage.hasWindow {V} s.
Arguments SafeStorage.blocked {V} s.
Arguments SafeStorage.cache {V} s.
Arguments SafeStorage.items {V} s.

(** X14.  In the browser, [safeStorage.get] after [safeStorage.set]
    returns the value given to [set], also when the write failed: a
    failed [set] answers [false] and leaves [localStorage] as it was,
    but the cache has the new value.  A successful [set] writes the
    serialized value under its key.  The values read under the other
    keys are the same as before. *)
Theorem storage_get_after_set {V : Type} (parse : string -> option (option V))
    (stringify : option V -> option string) (accepts : string -> string -> bool)
    (key : string) (value : option V) (st : SafeStorage.store V) :
  SafeStorage.hasWindow st = true ->
  let r := SafeStorage.set stringify accepts key value st in
  SafeStorage.get parse key (snd r) = (value, snd r)
  /\ (fst r = false -> SafeStorage.items (snd r) = SafeStorage.items st)
  /\ (fst r = true ->
      exists text, stringify value = Some text /\ accepts key text = true
                   /\ SafeStorage.items (snd r) = <[key := text]> (SafeStorage.items st))
  /\ (forall k, k <> key ->
        fst (SafeStorage.get parse k (snd r)) = fst (SafeStorage.get parse k st)).
Proof.
  intros Hw. cbv zeta. unfold SafeStorage.set. rewrite Hw. cbn [negb].
  set (st1 := SafeStorage.set_cache (<[key := value]> (SafeStorage.cache st)) st).
  assert (Hget1 : forall st2 : SafeStorage.store V,
             SafeStorage.hasWindow st2 = true ->
             SafeStorage.cache st2 = <[key := value]> (SafeStorage.cache st) ->
             SafeStorage.get parse key st2 = (value, st2)).
  { intros st2 Hw2 Hc. unfold SafeStorage.get. rewrite Hw2, Hc, lookup_insert_eq. reflexivity. }
  assert (Hother : forall st2 : SafeStorage.store V,
             SafeStorage.hasWindow st2 = true ->
             SafeStorage.blocked st2 = SafeStorage.blocked st ->
             SafeStorage.cache st2 = <[key := value]> (SafeStorage.cache st) ->
             forall k, k <> key ->
               SafeStorage.items st2 !! k = SafeStorage.items st !! k ->
               fst (SafeStorage.get parse k st2) = fst (SafeStorage.get parse k st)).
  { intros st2 Hw2 Hb Hc k Hk Hi. unfold SafeStorage.get.
    rewrite Hw2, Hw, Hc, Hb, Hi, lookup_insert_ne by congruence. cbn [negb].
    destruct (SafeStorage.cache st !! k); [reflexivity|].
    destruct (SafeStorage.blocked st); [reflexivity|].
    destruct (SafeStorage.items st !! k) as [[|c rest]|]; try reflexivity.
    destruct (parse (String c rest)); reflexivity. }
  destruct (stringify value) as [text|] eqn:Hs.
  - destruct (SafeStorage.blocked st1 || negb (accepts key text)) eqn:Hfail; cbn [fst snd].
    + split; [now apply Hget1|]. split; [reflexivity|]. split; [discriminate|].
      intros k Hk. now apply Hother.
    + split; [now apply Hget1|]. split; [discriminate|]. split.
      * intros _. exists text. split; [reflexivity|]. split; [|reflexivity].
        apply orb_false_iff in Hfail as [_ Ha]. now destruct (accepts key text).
      * intros k Hk. apply Hother; [exact Hw | reflexivity | reflexivity | exact Hk |].
        cbn. now rewrite lookup_insert_ne by congruence.
  - cbn [fst snd]. split; [now apply Hget1|]. split; [reflexivity|]. split; [discriminate|].
    intros k Hk. now apply Hother.
Qed.

Lemma storage_get_after_set_witness :
  let st := SafeStorage.mkStore nat true true ∅ ∅ in
  let r := SafeStorage.set (fun _ => Some "1"%string) (fun _ _ => true) "k" (Some 1%nat) st in
  SafeStorage.get (fun _ => Some (Some 1%nat)) "k" (snd r) = (Some 1%nat, snd r)
  /\ (fst r = false -> SafeStorage.items (snd r) = SafeStorage.items st)
  /\ (fst r = true ->
      exists text, (fun _ : option nat => Some "1"%string) (Some 1%nat) = Some text
                   /\ (fun _ _ : string => true) "k"%string text = true
                   /\ SafeStorage.items (snd r) = <[ "k"%string := text]> (SafeStorage.items st))
  /\ (forall k, k <> "k"%string ->
        fst (SafeStorage.get (fun _ => Some (Some 1%nat)) k (snd r))
        = fst (SafeStorage.get (fun _ => Some (Some 1%nat)) k st)).
Proof.
  cbv zeta.
  apply (storage_get_after_set (fun _ => Some (Some 1%nat)) (fun _ => Some "1"%string)
           (fun _ _ => true) "k" (Some 1%nat) (SafeStorage.mkStore nat true true ∅ ∅)).
  reflexivity.
Defined.

(** X15.  The round trip through [localStorage]: when the write
    succeeds, what [get] reads back once the cache entry is cleared is
    the parse of the text that [set] serialized; it is cached again. *)
Theorem storage_round_trip {V : Type} (parse : string -> option (option V))
    (stringify : option V -> option string) (accepts : string -> string -> bool)
    (key text : string) (value parsed : option V) (st : SafeStorage.store V) :
  SafeStorage.hasWindow st = true -> SafeStorage.blocked st = false ->
  stringify value = Some text -> accepts key text = true ->
  text <> EmptyString -> parse text = Some parsed ->
  let r := SafeStorage.set stringify accepts key value st in
  let st1 := SafeStorage.clear key (snd r) in
  fst r = true
  /\ SafeStorage.cache st1 !! key = None
  /\ fst (SafeStorage.get parse key st1) = parsed
  /\ SafeStorage.cache (snd (SafeStorage.get parse key st1)) !! key = Some parsed.
Proof.
  intros Hw Hb Hs Ha Hne Hp. cbv zeta.
  unfold SafeStorage.set. rewrite Hw, Hs. cbn [negb SafeStorage.blocked SafeStorage.set_cache].
  rewrite Hb, Ha. cbn [negb orb fst snd].
  split; [reflexivity|].
  unfold SafeStorage.clear, SafeStorage.get. cbn. rewrite Hw. cbn [negb].
  rewrite lookup_delete_eq, Hb, lookup_insert_eq.
  split; [reflexivity|].
  destruct text as [|c rest]; [contradiction|]. rewrite Hp. cbn.
  split; [reflexivity|]. apply lookup_insert_eq.
Qed.

Lemma storage_round_trip_witness :
  let parse := fun _ : string => Some (Some 1%nat) in
  let stringify := fun _ : option nat => Some "1"%string in
  let accepts := fun _ _ : string => true in
  let st := SafeStorage.mkStore nat true false ∅ ∅ in
  let r := SafeStorage.set stringify accepts "k" (Some 1%nat) st in
  let st1 := SafeStorage.clear "k" (snd r) in
  fst r = true
  /\ SafeStorage.cache st1 !! "k"%string = None
  /\ fst (SafeStorage.get parse "k" st1) = Some 1%nat
  /\ SafeStorage.cache (snd (SafeStorage.get parse "k" st1)) !! "k"%string = Some (Some 1%nat).
Proof.
  cbv zeta.
  apply (storage_round_trip (fun _ => Some (Some 1%nat)) (fun _ => Some "1"%string)
           (fun _ _ => true) "k" "1" (Some 1%nat) (Some 1%nat)
           (SafeStorage.mkStore nat true false ∅ ∅));
    try reflexivity.
  discriminate.
Defined.

(** X16.  [safeStorage.get] is idempotent: a second call returns the
    same value and changes nothing.  Once a key is cached, [get] returns
    the cached value whatever [localStorage] holds by then. *)
Theorem storage_get_cached {V : Type} (parse : string -> option (option V)) (key : string)
    (st : SafeStorage.store V) :
  let r := SafeStorage.get parse key st in
  SafeStorage.get parse key (snd r) = r
  /\ (forall cached items',
        SafeStorage.hasWindow st = true ->
        SafeStorage.cache (snd r) !! key = Some cached ->
        fst r = cached
        /\ SafeStorage.get parse key (SafeStorage.set_items items' (snd r))
           = (cached, SafeStorage.set_items items' (snd r))).
Proof.
  cbv zeta.
  assert (Hhit : forall (st2 : SafeStorage.store V) cached,
             SafeStorage.hasWindow st2 = true ->
             SafeStorage.cache st2 !! key = Some cached ->
             SafeStorage.get parse key st2 = (cached, st2)).
  { intros st2 cached Hw2 Hc. unfold SafeStorage.get. now rewrite Hw2, Hc. }
  split.
  - unfold SafeStorage.get at 2 3.
    destruct (SafeStorage.hasWindow st) eqn:Hw; cbn [negb].
    2:{ cbn [snd]. unfold SafeStorage.get. now rewrite Hw. }
    destruct (SafeStorage.cache st !! key) as [cached|] eqn:Hc.
    { cbn [snd]. now apply Hhit. }
    destruct (SafeStorage.blocked st) eqn:Hb.
    { cbn [snd]. unfold SafeStorage.get. now rewrite Hw, Hc, Hb. }
    destruct (SafeStorage.items st !! key) as [[|c rest]|] eqn:Hi.
    + cbn [snd]. apply Hhit; [exact Hw | apply lookup_insert_eq].
    + destruct (parse (String c rest)) as [parsed|] eqn:Hp.
      * cbn [snd]. apply Hhit; [exact Hw | apply lookup_insert_eq].
      * cbn [snd]. unfold SafeStorage.get. now rewrite Hw, Hc, Hb, Hi, Hp.
    + cbn [snd]. apply Hhit; [exact Hw | apply lookup_insert_eq].
  - intros cached items' Hw Hc.
    assert (Hw1 : SafeStorage.hasWindow (snd (SafeStorage.get parse key st)) = true).
    { unfold SafeStorage.get. rewrite Hw. cbn [negb].
      destruct (SafeStorage.cache st !! key); [exact Hw|].
      destruct (SafeStorage.blocked st); [exact Hw|].
      destruct (SafeStorage.items st !! key) as [[|c rest]|]; try exact Hw.
      destruct (parse (String c rest)); exact Hw. }
    split.
    + revert Hc. unfold SafeStorage.get. rewrite Hw. cbn [negb].
      destruct (SafeStorage.cache st !! key) as [c0|] eqn:Hc0.
      { cbn [fst snd]. rewrite Hc0. now intros [= ->]. }
      destruct (SafeStorage.blocked st).
      { cbn [fst snd]. rewrite Hc0. discriminate. }
      destruct (SafeStorage.items st !! key) as [[|c rest]|].
      * cbn. rewrite lookup_insert_eq. now intros [= <-].
      * destruct (parse (String c rest)).
        -- cbn. rewrite lookup_insert_eq. now intros [= <-].
        -- cbn [fst snd]. rewrite Hc0. discriminate.
      * cbn. rewrite lookup_insert_eq. now intros [= <-].
    + apply Hhit; [exact Hw1 | exact Hc].
Qed.

Lemma storage_get_cached_witness :
  let parse := fun _ : string => Some (Some 1%nat) in
  let st := SafeStorage.mkStore nat true false ∅ {[ "k"%string := "1"%string ]} in
  let r := SafeStorage.get parse "k" st in
  fst r = Some 1%nat
  /\ SafeStorage.get parse "k" (SafeStorage.set_items ∅ (snd r))
     = (Some 1%nat, SafeStorage.set_items ∅ (snd r)).
Proof.
  cbv zeta.
  apply (storage_get_cached (fun _ => Some (Some 1%nat)) "k"
           (SafeStorage.mkStore nat true false ∅ {[ "k"%string := "1"%string ]})).
  - reflexivity.
  - vm_compute. reflexivity.
Defined.

(** ** [useMobile] *)

(** While the hook is mounted, [windowWidth] is the width last taken
    over, and with no animation frame pending the window is less than
    10 pixels away from it. *)
Lemma useMobile_step (ev : UseMobile.event) (s : UseMobile.state) :
  (UseMobile.mounted s = true ->
   UseMobile.windowWidth s = UseMobile.lastWidth s
   /\ (UseMobile.rafId s = None ->
       Z.abs (UseMobile.innerWidth s - UseMobile.lastWidth s) < 10)) ->
  UseMobile.mounted (UseMobile.step ev s) = true ->
  UseMobile.windowWidth (UseMobile.step ev s) = UseMobile.lastWidth (UseMobile.step ev s)
  /\ (UseMobile.rafId (UseMobile.step ev s) = None ->
      Z.abs (UseMobile.innerWidth (UseMobile.step ev s)
             - UseMobile.lastWidth (UseMobile.step ev s)) < 10).
Proof.
  intros Hinv. destruct ev as [|width| |]; cbn [UseMobile.step].
  - destruct (UseMobile.mounted s) eqn:Hm; [intros _; exact (Hinv eq_refl)|]. intros _.
    cbn. split; [reflexivity|]. intros _. lia.
  - cbn [UseMobile.mounted]. destruct (UseMobile.mounted s) eqn:Hm; [|cbn; congruence].
    destruct (Hinv eq_refl) as [Hw _]. unfold UseMobile.handleResize.
    cbn [UseMobile.rafId]. destruct (UseMobile.rafId s) eqn:Hr; cbn; rewrite ?Hr;
      intros _; (split; [exact Hw | discriminate]).
  - destruct (UseMobile.rafId s) eqn:Hr.
    2:{ intros Hm. destruct (Hinv Hm) as [Hw Hn]. split; [exact Hw|]. intros _. now apply Hn. }
    unfold UseMobile.frameCallback.
    destruct (10 <=? Z.abs (UseMobile.innerWidth s - UseMobile.lastWidth s)) eqn:Hmove;
      cbn; intros Hm.
    + split; [reflexivity|]. intros _. lia.
    + destruct (Hinv Hm) as [Hw _]. split; [exact Hw|]. intros _. lia.
  - cbn. discriminate.
Qed.

(** X17.  The hook follows the window up to its 10 pixel threshold:
    whenever it is mounted and no animation frame is pending, the width
    it holds is less than 10 pixels away from the width of the window.
    So a window of at most 758 pixels is reported as mobile and a window
    of at least 777 pixels is not; in between the answer can be that of
    the other side of the 768 pixel breakpoint, as for a window resized
    from 769 to 760 pixels. *)
Theorem useMobile_follows_window :
  (forall (width : Z) (evs : list UseMobile.event),
     let s := UseMobile.run evs (UseMobile.initial width) in
     UseMobile.mounted s = true -> UseMobile.rafId s = None ->
     Z.abs (UseMobile.innerWidth s - UseMobile.windowWidth s) < 10
     /\ (UseMobile.innerWidth s <= 758 -> UseMobile.useMobile s = true)
     /\ (777 <= UseMobile.innerWidth s -> UseMobile.useMobile s = false))
  /\ (let s := UseMobile.run [UseMobile.Mount; UseMobile.Resize 760; UseMobile.Frame]
                 (UseMobile.initial 769) in
      UseMobile.mounted s = true /\ UseMobile.rafId s = None
      /\ UseMobile.innerWidth s = 760 /\ UseMobile.useMobile s = false).
Proof.
  split; [|repeat split].
  intros width evs. cbv zeta.
  assert (Hinv : forall s,
             (UseMobile.mounted s = true ->
              UseMobile.windowWidth s = UseMobile.lastWidth s
              /\ (UseMobile.rafId s = None ->
                  Z.abs (UseMobile.innerWidth s - UseMobile.lastWidth s) < 10)) ->
             UseMobile.mounted (UseMobile.run evs s) = true ->
             UseMobile.windowWidth (UseMobile.run evs s) = UseMobile.lastWidth (UseMobile.run evs s)
             /\ (UseMobile.rafId (UseMobile.run evs s) = None ->
                 Z.abs (UseMobile.innerWidth (UseMobile.run evs s)
                        - UseMobile.lastWidth (UseMobile.run evs s)) < 10)).
  { induction evs as [|ev evs IH]; intros s Hs; [exact Hs|].
    cbn [UseMobile.run fold_left]. apply IH. now apply (useMobile_step ev s). }
  intros Hm Hr. destruct (Hinv (UseMobile.initial width)) as [Hw Hnear];
    [discriminate | exact Hm |].
  specialize (Hnear Hr). rewrite <- Hw in Hnear. unfold UseMobile.useMobile.
  split; [exact Hnear|]. split; intros Hb; [apply Z.ltb_lt | apply Z.ltb_ge]; lia.
Qed.

Lemma useMobile_follows_window_witness :
  let s := UseMobile.run [UseMobile.Mount; UseMobile.Resize 500; UseMobile.Frame]
             (UseMobile.initial 1024) in
  Z.abs (UseMobile.innerWidth s - UseMobile.windowWidth s) < 10
  /\ (UseMobile.innerWidth s <= 758 -> UseMobile.useMobile s = true)
  /\ (777 <= UseMobile.innerWidth s -> UseMobile.useMobile s = false).
Proof.
  cbv zeta.
  apply (proj1 useMobile_follows_window 1024
           [UseMobile.Mount; UseMobile.Resize 500; UseMobile.Frame]); reflexivity.
Defined.

(** ** The weekly summary *)

Lemma strictEq_eqv (x y : number) :
  strictEq x y = true -> exists a b, x = Fin a /\ y = Fin b /\ (a == b)%Q.
Proof.
  destruct x as [a|], y as [b|]; try discriminate. intros H. exists a, b.
  split; [reflexivity|]. split; [reflexivity|]. now apply Qeq_bool_iff.
Qed.

Lemma gt_zero_eqv (a b : Q) :
  (a == b)%Q -> Num.gt (Fin a) Num.zero = Num.gt (Fin b) Num.zero.
Proof.
  intros Hab. unfold Num.gt, Num.lt, Num.zero.
  destruct (Num.Qltb 0 a) eqn:Ha, (Num.Qltb 0 b) eqn:Hb; try reflexivity; qprop; lra.
Qed.

(** X18.  The comparison given to [memo] only skips a render whose
    output would be the same: when it answers [true] for two sets of
    statistics, [formattedValues] is the same for both ([toFixed] being a
    function of the value of the number).  With a [NaN] statistic on
    either side it never answers [true], not even for the same props
    twice. *)
Theorem summary_memo_sound (toFixed1 : number -> string) (dayName : string -> option string)
    (prevProps nextProps : WeeklyStats) :
  ((forall a b, (a == b)%Q -> toFixed1 (Fin a) = toFixed1 (Fin b)) ->
   WeeklySummary.arePropsEqual prevProps nextProps = true ->
   WeeklySummary.formattedValues toFixed1 dayName prevProps
   = WeeklySummary.formattedValues toFixed1 dayName nextProps)
  /\ (weeklyTotal prevProps = NaN \/ dailyAverage prevProps = NaN
      \/ maxProduction prevProps = NaN ->
      WeeklySummary.arePropsEqual prevProps nextProps = false
      /\ WeeklySummary.arePropsEqual nextProps prevProps = false
      /\ WeeklySummary.arePropsEqual prevProps prevProps = false).
Proof.
  split.
  - intros Hfix Heq. unfold WeeklySummary.arePropsEqual in Heq.
    apply andb_true_iff in Heq as [Heq Hday]. apply andb_true_iff in Heq as [Heq Hmax].
    apply andb_true_iff in Heq as [Htot Havg].
    apply bool_decide_eq_true in Hday.
    apply strictEq_eqv in Htot as (t1 & t2 & Ht1 & Ht2 & Ht).
    apply strictEq_eqv in Havg as (a1 & a2 & Ha1 & Ha2 & Ha).
    apply strictEq_eqv in Hmax as (m1 & m2 & Hm1 & Hm2 & Hm).
    unfold WeeklySummary.formattedValues. cbv zeta.
    rewrite Ht1, Ht2, Ha1, Ha2, Hm1, Hm2.
    rewrite (Hfix _ _ Ht), (Hfix _ _ Ha), (Hfix _ _ Hm), (gt_zero_eqv _ _ Hm).
    destruct (Num.gt (Fin m2) Num.zero); [|reflexivity].
    destruct (maxProductionDay prevProps) as [d1|], (maxProductionDay nextProps) as [d2|];
      cbn [option_map] in Hday; try discriminate; [|reflexivity].
    injection Hday as ->. reflexivity.
  - unfold WeeklySummary.arePropsEqual.
    assert (Hr : forall x, strictEq x NaN = false) by (now intros [q|]).
    intros [H | [H | H]]; rewrite H, ?Hr; cbn [strictEq andb];
      rewrite ?andb_false_r; cbn [andb]; repeat split.
Qed.

Lemma summary_memo_sound_witness :
  let toFixed1 := fun _ : number => "2.0"%string in
  let dayName := fun _ : string => Some "Mon"%string in
  let e := mkEntry "2024-01-08" (Num.of_Z 2) (Uuid 0) in
  let prevProps := mkStats (Num.of_Z 2) (Num.of_Z 2) (Num.of_Z 2) (Some e) in
  let nextProps := mkStats (Fin (4 # 2)) (Fin (4 # 2)) (Fin (4 # 2))
                     (Some (mkEntry "2024-01-08" (Fin (4 # 2)) (Uuid 5))) in
  WeeklySummary.formattedValues toFixed1 dayName prevProps
  = WeeklySummary.formattedValues toFixed1 dayName nextProps.
Proof.
  cbv zeta. apply summary_memo_sound; reflexivity.
Defined.

Lemma countProducing_none (es : list SolarEntry) :
  chartShown es = false -> countProducing es = 0%nat.
Proof.
  induction es as [|e es IH]; [reflexivity|]. unfold chartShown. cbn [existsb countProducing].
  intros H. apply orb_false_iff in H as [He Hes]. rewrite He. cbn. now apply IH.
Qed.

(** X19.  The summary of a week, from its statistics.  When no day of
    the week produced (the case in which the chart is hidden) the best
    day card shows ["-"] over ["kWh"] and the average is that of 0; the
    name of a day is not computed.  Otherwise the card shows the
    production and the day name of an entry of the week that produced,
    and the summary fails only if that name cannot be computed. *)
Theorem summary_of_week (toFixed1 : number -> string) (dayName : string -> option string)
    (es : list SolarEntry) :
  let st := Tracker_stats.weeklyStats es in
  (chartShown es = false ->
   WeeklySummary.formattedValues toFixed1 dayName st
   = Some (WeeklySummary.mkFormatted (toFixed1 (weeklyTotal st)) (toFixed1 Num.zero) "-" "kWh"))
  /\ (chartShown es = true ->
      exists e, e ∈ es /\ Num.gt (production e) Num.zero = true
        /\ WeeklySummary.formattedValues toFixed1 dayName st
           = match dayName (date e) with
             | Some name =>
                 Some (WeeklySummary.mkFormatted (toFixed1 (weeklyTotal st))
                         (toFixed1 (dailyAverage st)) (toFixed1 (production e)) name)
             | None => None
             end).
Proof.
  cbv zeta. destruct (weeklyStats_fields es) as (_ & Havg & Hmax). cbv zeta in *.
  unfold WeeklySummary.formattedValues. cbv zeta.
  destruct (scan_max es Num.zero None)
    as [[Hr Hall] | (pre & e & post & Hes & Hr & Hgt & _)]; cbv zeta in *;
    rewrite Hr in Hmax; injection Hmax as Hmp Hmd; rewrite Hmp, Hmd.
  - split.
    + intros Hs. rewrite Havg, (countProducing_none es Hs). reflexivity.
    + intros Hs. apply chartShown_producing in Hs as (e & He & Hp).
      rewrite (Hall e He) in Hp. discriminate.
  - assert (Hin : e ∈ es) by (rewrite Hes; apply elem_of_app; right; left).
    split.
    + intros Hs. rewrite (chartShown_none es Hs e Hin) in Hgt. discriminate.
    + intros _. exists e. split; [exact Hin|]. split; [exact Hgt|].
      rewrite Hgt. reflexivity.
Qed.

Lemma summary_of_week_witness :
  let toFixed1 := fun _ : number => "0.0"%string in
  let dayName := fun _ : string => Some "Mon"%string in
  let es := [mkEntry "2024-01-08" Num.zero (Uuid 0)] in
  let st := Tracker_stats.weeklyStats es in
  WeeklySummary.formattedValues toFixed1 dayName st
  = Some (WeeklySummary.mkFormatted (toFixed1 (weeklyTotal st)) (toFixed1 Num.zero) "-" "kWh").
Proof.
  cbv zeta. apply summary_of_week. reflexivity.
Defined.

(** ** The week shown and the store *)

(** A materialization on a coherent slot shows the store, and leaves a
    coherent slot. *)
Lemma getCurrentWeekEntries_coherent (s : State) :
  week_coherent s ->
  (forall e, e ∈ fst (getCurrentWeekEntries s) -> production e = dayProduction s (date e))
  /\ week_coherent (snd (getCurrentWeekEntries s)).
Proof.
  intros Hco. destruct (st_date s) as [[ms|]|] eqn:Hd.
  - assert (Hmiss : (forall es, weeklyEntriesCache s
                                <> Some (DateFns.formatDay (weekStartDay ms), es)) ->
                    (forall e, e ∈ fst (getCurrentWeekEntries s) ->
                               production e = dayProduction s (date e))
                    /\ week_coherent (snd (getCurrentWeekEntries s))).
    { intros Hne. destruct (getCurrentWeekEntries_miss s ms Hd Hne) as (es & n & Hg & _ & _ & Hp).
      rewrite Hg. cbn [fst snd]. split; [now apply production_by_date|].
      intros key es' [= <- <-] e He. now apply (production_by_date s es). }
    destruct (weeklyEntriesCache s) as [[cd ce]|] eqn:Hc.
    + destruct (decide (cd = DateFns.formatDay (weekStartDay ms))) as [->|Hne].
      * rewrite (getCurrentWeekEntries_hit s ms ce Hd Hc). cbn [fst snd].
        split; [now apply (Hco _ _ Hc) | exact Hco].
      * apply Hmiss. intros es Heq. congruence.
    + apply Hmiss. intros es Heq. discriminate.
  - unfold getCurrentWeekEntries. rewrite Hd. cbn.
    split; [intros e He; inversion He | exact Hco].
  - unfold getCurrentWeekEntries. rewrite Hd. cbn.
    split; [intros e He; inversion He | exact Hco].
Qed.

(** The events other than the load of a non-empty batch keep the store
    in step and the cache slot coherent. *)
Lemma coherent_event (ev : event) (s : State) :
  noStoredEntry ev -> store_ok s -> week_coherent s ->
  store_ok (apply_event ev s) /\ week_coherent (apply_event ev s).
Proof.
  intros Hev Hok Hco.
  assert (Hnone : forall s', store_ok s' -> weeklyEntriesCache s' = None ->
                             store_ok s' /\ week_coherent s').
  { intros s' Hok' Hc. split; [exact Hok'|]. intros key es Heq. rewrite Hc in Heq. discriminate. }
  destruct ev as [| |saved|d|input|d value| |t]; cbn [apply_event].
  - split; [exact Hok | exact Hco].
  - split; [|now apply getCurrentWeekEntries_coherent].
    destruct (getCurrentWeekEntries_frame s) as (c & n & ->). exact Hok.
  - destruct saved as [[|r l]|]; [| contradiction | split; [exact Hok | exact Hco]].
    change (loadEntries (Some []) s) with (Some (loaded s [] [] (uuidCalls s))).
    destruct Hok as [Hnd Hsync]. unfold store_ok, synced, week_coherent, dayProduction, loaded.
    cbn. rewrite !app_nil_r. split; [split; assumption | exact Hco].
  - unfold handleDateChange. destruct d as [d|]; [|split; [exact Hok | exact Hco]].
    destruct (negb (DateFns.isValid d)); [split; [exact Hok | exact Hco]|].
    destruct (DateFns.after d (today s)); split; (exact Hok || exact Hco).
  - unfold submit. destruct (formSchema input) as [v|]; [|split; [exact Hok | exact Hco]].
    pose proof (store_ok_onSubmit v s Hok) as Hok'.
    destruct (st_date s) as [dt|] eqn:Hd.
    2: { unfold onSubmit. rewrite Hd. split; [exact Hok | exact Hco]. }
    destruct (DateFns.after dt (today s)) eqn:Hafter.
    { unfold onSubmit. rewrite Hd, Hafter. split; [exact Hok | exact Hco]. }
    destruct dt as [ms|].
    + destruct (onSubmit_accepted v s ms Hd Hafter) as (_ & _ & _ & Hc & _). cbv zeta in Hc.
      now apply Hnone.
    + unfold onSubmit. rewrite Hd, Hafter. cbn. split; [exact Hok | exact Hco].
  - unfold commitEdit. destruct (Num.isNaN value); [split; [exact Hok | exact Hco]|].
    destruct (Num.lt value Num.zero) eqn:H0.
    { rewrite updateEntry_rejected by (now left). split; [exact Hok | exact Hco]. }
    destruct (Num.gt value (Num.of_Z 100)) eqn:H100.
    { rewrite updateEntry_rejected by (now right). split; [exact Hok | exact Hco]. }
    destruct (updateEntry_accepted d value s H0 H100) as (_ & _ & _ & Hc & _). cbv zeta in Hc.
    apply Hnone; [now apply store_ok_updateEntry | exact Hc].
  - destruct Hok as [Hnd Hsync]. destruct (ready_dec s) as [Hr|Hr].
    + rewrite (saveEffect_ready s Hr).
      unfold store_ok, synced, week_coherent, dayProduction. cbn.
      split; [split; [exact Hnd | reflexivity]|].
      unfold synced in Hsync. rewrite <- Hsync. exact Hco.
    + rewrite (saveEffect_not_ready s Hr).
      destruct (saveCleanup s); (split; [split; [exact Hnd | exact Hsync] | exact Hco]).
  - destruct (advance_frame t s) as (c & ts & r & w & ->).
    split; [exact Hok | exact Hco].
Qed.

(** X20.  In a session whose load brings no element (nothing stored, or
    an empty array), the week rendered at any point shows for each of
    its days the pending value, else the stored production, else 0: the
    cache slot never serves a week that the store has outgrown. *)
Theorem week_shows_store_without_stored_entries (now : Z) (evs : list event) :
  Forall noStoredEntry evs ->
  let s := run evs (initial now) in
  store_ok s
  /\ forall e, e ∈ fst (getCurrentWeekEntries s) -> production e = dayProduction s (date e).
Proof.
  intros Hall. cbv zeta.
  assert (H : forall s, store_ok s -> week_coherent s ->
                        store_ok (run evs s) /\ week_coherent (run evs s)).
  { induction Hall as [|ev evs Hev _ IH]; intros s Hok Hco; [split; assumption|].
    cbn [run fold_left]. destruct (coherent_event ev s Hev Hok Hco) as [Hok' Hco'].
    now apply IH. }
  destruct (H (initial now)) as [Hok Hco].
  - split; [constructor | reflexivity].
  - intros key es Hc. discriminate.
  - split; [exact Hok|]. now apply getCurrentWeekEntries_coherent.
Qed.

Lemma week_shows_store_without_stored_entries_witness :
  let s := run [Mount; Commit; Render; Load (Some []); Commit;
                Edit "1970-01-01" (Num.of_Z 5); Commit; Render] (initial 0) in
  store_ok s
  /\ forall e, e ∈ fst (getCurrentWeekEntries s) -> production e = dayProduction s (date e).
Proof.
  cbv zeta. apply week_shows_store_without_stored_entries.
  repeat constructor.
Defined.

(** ** Identifiers of loaded entries *)

Lemma coerce_id (r : RawEntry) (n : nat) :
  match raw_id r with
  | Some (String c rest) =>
      id (fst (coerce r n)) = Loaded (String c rest) /\ snd (coerce r n) = n
  | _ => id (fst (coerce r n)) = Uuid n /\ snd (coerce r n) = S n
  end.
Proof. unfold coerce. destruct (raw_id r) as [[|c rest]|]; split; reflexivity. Qed.

Lemma coerceAll_cons (r : RawEntry) (saved : list RawEntry) (n : nat) :
  coerceAll (r :: saved) n
  = (fst (coerce r n) :: fst (coerceAll saved (snd (coerce r n))),
     snd (coerceAll saved (snd (coerce r n)))).
Proof.
  cbn [coerceAll]. destruct (coerce r n) as [e0 n1]. cbn [fst snd].
  now destruct (coerceAll saved n1).
Qed.

Lemma coerce_calls (r : RawEntry) (n : nat) :
  (n <= snd (coerce r n) <= S n)%nat.
Proof.
  pose proof (coerce_id r n) as Hid.
  destruct (raw_id r) as [[|c rest]|]; destruct Hid as [_ ->]; lia.
Qed.

Lemma coerceAll_calls (saved : list RawEntry) (n : nat) :
  (n <= snd (coerceAll saved n))%nat.
Proof.
  revert n. induction saved as [|r saved IH]; intros n; [cbn; lia|].
  rewrite coerceAll_cons. cbn [snd].
  pose proof (coerce_calls r n). specialize (IH (snd (coerce r n))). lia.
Qed.

(** The generated identifiers of a batch are those of its calls to
    [randomUUID]. *)
Lemma coerceAll_generated (saved : list RawEntry) (n i k : nat) (e : SolarEntry) :
  fst (coerceAll saved n) !! i = Some e -> id e = Uuid k ->
  (n <= k < snd (coerceAll saved n))%nat.
Proof.
  revert n i. induction saved as [|r saved IH]; intros n i He Hk.
  - cbn in He. rewrite lookup_nil in He. discriminate.
  - rewrite coerceAll_cons in *. cbn [fst snd] in *.
    pose proof (coerce_calls r n) as Hc.
    pose proof (coerceAll_calls saved (snd (coerce r n))) as Hm.
    destruct i as [|i]; cbn in He.
    + injection He as <-. pose proof (coerce_id r n) as Hid.
      destruct (raw_id r) as [[|c rest]|]; destruct Hid as [Hid Hn1];
        rewrite Hid in Hk; try discriminate; injection Hk as <-; lia.
    + specialize (IH _ _ He Hk). lia.
Qed.

(** X21.  The identifiers that the load gives, in [processChunk] as in
    the worker's [processEntries]: an element stored with a non-empty
    [id] keeps it; every other element, also one whose stored [id] is
    the empty string, receives a generated identifier.  The generated
    identifiers are those of the calls to [randomUUID] made for the
    batch, and no two elements of the batch share one. *)
Theorem load_identifiers (saved : list RawEntry) (n : nat) :
  let all := fst (coerceAll saved n) in
  let n' := snd (coerceAll saved n) in
  (n <= n')%nat
  /\ (forall i r e, saved !! i = Some r -> all !! i = Some e ->
        match raw_id r with
        | Some (String c rest) => id e = Loaded (String c rest)
        | _ => exists k, id e = Uuid k /\ (n <= k < n')%nat
        end)
  /\ (forall i j e1 e2 k, all !! i = Some e1 -> all !! j = Some e2 ->
        id e1 = Uuid k -> id e2 = Uuid k -> i = j).
Proof.
  cbv zeta. split; [apply coerceAll_calls|]. split.
  - revert n. induction saved as [|r saved IH]; intros n i r0 e Hr He.
    + rewrite lookup_nil in Hr. discriminate.
    + rewrite coerceAll_cons in *. cbn [fst snd] in *.
      pose proof (coerce_calls r n) as Hc.
      pose proof (coerceAll_calls saved (snd (coerce r n))) as Hm.
      destruct i as [|i]; cbn in Hr, He.
      * injection Hr as <-. injection He as <-. pose proof (coerce_id r n) as Hid.
        destruct (raw_id r) as [[|c rest]|]; destruct Hid as [Hid Hn1];
          first [exact Hid | exists n; split; [exact Hid | lia]].
      * specialize (IH _ _ _ _ Hr He).
        destruct (raw_id r0) as [[|c rest]|]; try exact IH;
          destruct IH as (k & Hk & Hb); exists k; (split; [exact Hk | lia]).
  - revert n. induction saved as [|r saved IH]; intros n i j e1 e2 k He1 He2 Hk1 Hk2.
    + cbn in He1. rewrite lookup_nil in He1. discriminate.
    + rewrite coerceAll_cons in *. cbn [fst snd] in *.
      assert (Hhead : forall i' e, fst (coerceAll saved (snd (coerce r n))) !! i' = Some e ->
                                   id (fst (coerce r n)) = Uuid k -> id e = Uuid k -> False).
      { intros i' e He H0 Hk. pose proof (coerceAll_generated _ _ _ _ _ He Hk) as Hb.
        pose proof (coerce_id r n) as Hid.
        destruct (raw_id r) as [[|c rest]|]; destruct Hid as [Hid Hn1];
          rewrite Hid in H0; try discriminate; injection H0 as <-; lia. }
      destruct i as [|i], j as [|j]; cbn in He1, He2.
      * reflexivity.
      * injection He1 as <-. exfalso. eapply Hhead; eauto.
      * injection He2 as <-. exfalso. eapply Hhead; eauto.
      * f_equal. eapply IH; eauto.
Qed.
